(** * searchSECO-parser: the orchestration layer of [src/Parser.ts]

    A shallow embedding of the tree walk ([getAllFiles]), the language
    classifier ([getFileNameAndLanguage]), the backend registry
    ([Parser.parsers]) and the orchestrator ([Parser.ParseFiles]), followed
    by the properties of the specification stated over that embedding.

    Conventions of the embedding.
    - A JavaScript string is a sequence of UTF-16 code units; it is embedded
      as a Rocq [string], whose characters are the code units below 256.
    - The file system is the tree that [fs.readdirSync] and [fs.statSync]
      observe during one walk.
    - A promise is embedded by the way it settles. *)

From Stdlib Require Import String Ascii List Bool Arith Lia.
From Stdlib Require Import ZArith.
Import ListNotations.
#[local] Set Warnings "-register-all".
Local Open Scope string_scope.
Local Open Scope list_scope.

(** ** Built-ins of the JavaScript string library used by the source *)

Module Js.

(** [s.slice(n)] *)
Fixpoint slice (n : nat) (s : string) : string :=
  match n, s with
  | O, _ => s
  | S _, EmptyString => EmptyString
  | S n', String _ s' => slice n' s'
  end.

(** [s.replace(pat, rep)] for a string pattern: the first occurrence of
    [pat] (the empty pattern occurs at index 0) is replaced.  The two
    replacement strings of the source, ['.'] and ['/'], hold no [$]
    pattern, so they are inserted literally. *)
Fixpoint replace (s pat rep : string) : string :=
  if String.prefix pat s then (rep ++ slice (String.length pat) s)%string
  else match s with
       | EmptyString => EmptyString
       | String c s' => String c (replace s' pat rep)
       end.

(** [s.split(sep)] for a one-character separator: never empty. *)
Fixpoint split (sep : ascii) (s : string) : list string :=
  match s with
  | EmptyString => [EmptyString]
  | String c s' =>
      if Ascii.eqb c sep then EmptyString :: split sep s'
      else match split sep s' with
           | seg :: segs => String c seg :: segs
           | [] => [String c EmptyString]
           end
  end.

(** [a.pop()], as a value: the last element, [undefined] on an empty array. *)
Fixpoint pop (a : list string) : option string :=
  match a with
  | [] => None
  | [x] => Some x
  | _ :: a' => pop a'
  end.

(** [a.join(sep)] *)
Fixpoint join (sep : string) (a : list string) : string :=
  match a with
  | [] => EmptyString
  | [x] => x
  | x :: a' => (x ++ sep ++ join sep a')%string
  end.

(** One code unit of [toLowerCase]: A-Z and the Latin-1 capitals. *)
Definition lowerUnit (c : ascii) : ascii :=
  let n := nat_of_ascii c in
  if (((65 <=? n) && (n <=? 90))
      || ((192 <=? n) && (n <=? 222) && negb (n =? 215)))%nat
  then ascii_of_nat (n + 32) else c.

(** [s.toLowerCase()] *)
Fixpoint toLowerCase (s : string) : string :=
  match s with
  | EmptyString => EmptyString
  | String c s' => String (lowerUnit c) (toLowerCase s')
  end.

(** The code units that [.] of a regular expression does not match
    (line feed and carriage return; U+2028 and U+2029 lie above 255). *)
Definition isLineTerminator (c : ascii) : bool :=
  ((nat_of_ascii c =? 10) || (nat_of_ascii c =? 13))%nat.

End Js.

(** ** [path.join] of Node (POSIX flavour) *)

Module Path.

(** The segment stack of [normalizeString]; [res] is kept reversed. *)
Fixpoint normalizeSegments (allowAboveRoot : bool) (segs res : list string)
  : list string :=
  match segs with
  | [] => rev res
  | seg :: rest =>
      if (seg =? "")%string || (seg =? ".")%string
      then normalizeSegments allowAboveRoot rest res
      else if (seg =? "..")%string then
        match res with
        | top :: res' =>
            if (top =? "..")%string
            then normalizeSegments allowAboveRoot rest
                   (if allowAboveRoot then ".." :: res else res)
            else normalizeSegments allowAboveRoot rest res'
        | [] =>
            normalizeSegments allowAboveRoot rest
              (if allowAboveRoot then [".."] else [])
        end
      else normalizeSegments allowAboveRoot rest (seg :: res)
  end.

Definition endsWithSlash (p : string) : bool :=
  match Js.pop (Js.split "/" p) with
  | Some EmptyString => negb (p =? "")%string
  | _ => false
  end.

Definition normalize (p : string) : string :=
  if (p =? "")%string then "."
  else
    let isAbsolute := String.prefix "/" p in
    let trailingSeparator := endsWithSlash p in
    let q := Js.join "/"
               (normalizeSegments (negb isAbsolute) (Js.split "/" p) []) in
    if (q =? "")%string then
      if isAbsolute then "/" else if trailingSeparator then "./" else "."
    else
      let q' := if trailingSeparator then (q ++ "/")%string else q in
      if isAbsolute then ("/" ++ q')%string else q'.

(** [path.join(a, b)]: empty arguments are dropped. *)
Definition join (a b : string) : string :=
  if (a =? "")%string then normalize b
  else if (b =? "")%string then normalize a
  else normalize (a ++ "/" ++ b)%string.

End Path.

(** ** The file system seen by the walk *)

(** What [fs.statSync] and [fs.readdirSync] answer for an entry. *)
Inductive Node : Type :=
| File                                  (* stat succeeds, not a directory *)
| Dir (entries : list (string * Node))  (* a directory that can be listed  *)
| Locked                                (* a directory; listing it throws  *)
| Gone.                                 (* stat throws                     *)

Record Stats : Type := { isDirectory : bool }.

(** [fs.statSync(p)]: [None] when it throws. *)
Definition statSync (n : Node) : option Stats :=
  match n with
  | File => Some {| isDirectory := false |}
  | Dir _ => Some {| isDirectory := true |}
  | Locked => Some {| isDirectory := true |}
  | Gone => None
  end.

(** ** [getAllFiles] *)

(** [/^.git/.test(file)] *)
Definition gitRegexTest (file : string) : bool :=
  match file with
  | String c rest => negb (Js.isLineTerminator c) && String.prefix "git" rest
  | EmptyString => false
  end.

(** [recursivelyGetFiles(currDir, acc)], where [n] is what the file system
    holds at [currDir].  The only statement that can throw out of the
    function is its first one, [readdirSync], before [acc] is touched:
    every exception raised inside the [forEach] callback is caught there.
    So the result is [None] (thrown, [acc] as it was) or the array after
    the loop. *)
Fixpoint recursivelyGetFiles (currDir : string) (n : Node) (acc : list string)
  {struct n} : option (list string) :=
  match n with
  | Dir entries =>                             (* fs.readdirSync(currDir) *)
      Some
        (fold_left
           (fun (acc : list string) (entry : string * Node) =>
              let (file, child) := entry in
              if gitRegexTest file then acc
              else
                let abs_path := Path.join currDir file in
                match statSync child with
                | Some st =>
                    if isDirectory st then
                      match recursivelyGetFiles abs_path child acc with
                      | Some acc' => acc'
                      | None => acc            (* catch (e) *)
                      end
                    else acc ++ [abs_path]
                | None => acc                  (* catch (e) *)
                end)
           entries acc)
  | File | Locked | Gone => None               (* readdirSync throws *)
  end.

(** [getAllFiles(dir)]; [root] is the entry at the rewritten path. *)
Definition getAllFiles (dir : string) (root : Node) : option (list string) :=
  recursivelyGetFiles (Js.replace dir "\" "/") root [].

(** ** Languages and [getFileNameAndLanguage] *)

Inductive XMLSupportedLanguage : Type := CPP | CSHARP | JAVA.
Inductive ANTLRSupportedLanguage : Type := PYTHON | JS.

(** [type Language = XMLSupportedLanguage | ANTLRSupportedLanguage] *)
Inductive Language : Type :=
| XML (l : XMLSupportedLanguage)
| ANTLR (l : ANTLRSupportedLanguage).

(** The string value of each enum member. *)
Definition languageValue (l : Language) : string :=
  match l with
  | XML CPP => "C++"
  | XML CSHARP => "C#"
  | XML JAVA => "Java"
  | ANTLR PYTHON => "Python"
  | ANTLR JS => "Javascript"
  end.

Definition Language_eq_dec (a b : Language) : {a = b} + {a <> b}.
Proof. repeat decide equality. Defined.

Record FileNameAndLanguage : Type :=
  { filename : string; lang : option Language }.

(** The [switch] over the lowered extension. *)
Definition languageOfExtension (ext : string) : option Language :=
  if (ext =? "py")%string then Some (ANTLR PYTHON)
  else if (ext =? "js")%string then Some (ANTLR JS)
  else if (ext =? "cpp")%string then Some (XML CPP)
  else if (ext =? "cs")%string then Some (XML CSHARP)
  else if (ext =? "java")%string then Some (XML JAVA)
  else None.

(** [filename?.split('.').pop()?.toLowerCase()] *)
Definition loweredExtension (filename : string) : option string :=
  option_map Js.toLowerCase (Js.pop (Js.split "." filename)).

Definition getFileNameAndLanguage (filepath basePath : string)
  : FileNameAndLanguage :=
  let filename := Js.replace filepath basePath "." in
  match loweredExtension filename with
  | Some ext => {| filename := filename; lang := languageOfExtension ext |}
  | None => {| filename := filename; lang := None |}
  end.

(** ** Promises, by the way they settle *)

Inductive Failure : Type :=
| WalkFailed                     (* [readdirSync] of the root threw *)
| BackendFailed (why : string).  (* a backend's [Parse()] rejected   *)

Inductive Settled (A : Type) : Type :=
| Fulfilled (value : A)
| Rejected (reason : Failure).
Arguments Fulfilled {A} value.
Arguments Rejected {A} reason.

(** [Promise.all]: the values in the order of the array, or a rejection as
    soon as one member rejects (the earliest of the array stands for the
    earliest in time). *)
Fixpoint Promise_all {A : Type} (ps : list (Settled A)) : Settled (list A) :=
  match ps with
  | [] => Fulfilled []
  | Rejected e :: _ => Rejected e
  | Fulfilled v :: ps' =>
      match Promise_all ps' with
      | Fulfilled vs => Fulfilled (v :: vs)
      | Rejected e => Rejected e
      end
  end.

(** ** Backends *)

(** Modelled from the spec: [HashData] is declared in [./HashData], which is
    not part of the sources at hand; its fields are those of the spec's
    FunctionRecord. *)
Record HashData : Type :=
  { fileName : string;
    languageTag : Language;
    name : string;
    startLine : nat;
    endLine : nat;
    fingerprint : string }.

(** Modelled from the spec: a function located by a backend in a queued
    file, with the two sizes the minimum-size filter looks at. *)
Record LocatedFunction : Type :=
  { record : HashData; lineCount : nat; charCount : nat }.

(** Modelled from the spec: [IParser] and its implementations live in
    [./ParserBase], [./languages/...] and [./srcML/XmlParser], which are not
    part of the sources at hand.  A backend owns a queue of
    (fileName, basePath) pairs and two size thresholds; [locate] is its
    language-specific analysis of the queued files, a function of the queue
    because the content of the files does not change during a run.  The
    spec wants the queue empty after a completed cycle and is silent about
    a cycle that fails: [stale] is what the queue holds then. *)
Record IParser : Type :=
  { minMethodLines : nat;
    minFunctionChars : nat;
    buffer : list (string * string);
    locate : list (string * string) -> Settled (list LocatedFunction);
    stale : list (string * string) -> list (string * string) }.

(** The same backend object with another queue. *)
Definition withBuffer (p : IParser) (queue : list (string * string))
  : IParser :=
  {| minMethodLines := minMethodLines p;
     minFunctionChars := minFunctionChars p;
     buffer := queue;
     locate := locate p;
     stale := stale p |}.

(** Modelled from the spec: [AddFile(relativeName, basePath)] enqueues and
    does nothing else. *)
Definition AddFile (p : IParser) (relativeName basePath : string) : IParser :=
  withBuffer p (buffer p ++ [(relativeName, basePath)]).

(** Modelled from the spec: a function is below the configured minimum size
    when its line count or its character count is below the threshold. *)
Definition belowMinimum (p : IParser) (f : LocatedFunction) : bool :=
  ((lineCount f <? minMethodLines p)
   || (charCount f <? minFunctionChars p))%nat.

(** Modelled from the spec: the records a located function gives rise to. *)
Definition emit (p : IParser) (f : LocatedFunction) : list HashData :=
  if belowMinimum p f then [] else [record f].

(** Modelled from the spec: [Parse()] processes every file of the queue,
    filters by size, and clears the queue as part of completing the cycle.
    The result is the settled promise and the backend afterwards. *)
Definition Parse (p : IParser) : Settled (list HashData) * IParser :=
  match locate p (buffer p) with
  | Fulfilled fs => (Fulfilled (flat_map (emit p) fs), withBuffer p [])
  | Rejected e => (Rejected e, withBuffer p (stale p (buffer p)))
  end.

(** ** [Map<Language, IParser>]: entries in insertion order *)

Definition Map : Type := list (Language * IParser).

Fixpoint Map_get (m : Map) (k : Language) : option IParser :=
  match m with
  | [] => None
  | (k', v) :: m' => if Language_eq_dec k k' then Some v else Map_get m' k
  end.

(** [m.set(k, v)]: a present key keeps its place. *)
Fixpoint Map_set (m : Map) (k : Language) (v : IParser) : Map :=
  match m with
  | [] => [(k, v)]
  | (k', v') :: m' =>
      if Language_eq_dec k k' then (k', v) :: m'
      else (k', v') :: Map_set m' k v
  end.

(** [new Map(entries)] *)
Definition Map_new (entries : list (Language * IParser)) : Map :=
  fold_left (fun m e => Map_set m (fst e) (snd e)) entries [].

Definition Map_keys (m : Map) : list Language := map fst m.
Definition Map_values (m : Map) : list IParser := map snd m.

(** ** The registry [Parser.parsers] *)

Definition MIN_FUNCTION_CHARS : nat := 0.
Definition MIN_METHOD_LINES : nat := 0.

Section Registry.

(** The language-specific analyses, which the sources at hand do not
    contain.  The constructors below name their parameters after the
    constants that the source passes in each position. *)
Variable analyse :
  Language -> list (string * string) -> Settled (list LocatedFunction).
Variable leftover :
  Language -> list (string * string) -> list (string * string).

(** [new Javascript(MIN_METHOD_LINES, MIN_FUNCTION_CHARS)] *)
Definition Javascript (minLines minChars : nat) : IParser :=
  {| minMethodLines := minLines; minFunctionChars := minChars;
     buffer := []; locate := analyse (ANTLR JS);
     stale := leftover (ANTLR JS) |}.

(** [new Python(MIN_METHOD_LINES, MIN_FUNCTION_CHARS)] *)
Definition Python (minLines minChars : nat) : IParser :=
  {| minMethodLines := minLines; minFunctionChars := minChars;
     buffer := []; locate := analyse (ANTLR PYTHON);
     stale := leftover (ANTLR PYTHON) |}.

(** [new XMLParser(lang, MIN_FUNCTION_CHARS, MIN_METHOD_LINES)] *)
Definition XMLParser (l : XMLSupportedLanguage) (minChars minLines : nat)
  : IParser :=
  {| minMethodLines := minLines; minFunctionChars := minChars;
     buffer := []; locate := analyse (XML l);
     stale := leftover (XML l) |}.

Definition parsers : Map :=
  Map_new
    [ (ANTLR JS, Javascript MIN_METHOD_LINES MIN_FUNCTION_CHARS);
      (ANTLR PYTHON, Python MIN_METHOD_LINES MIN_FUNCTION_CHARS);
      (XML CPP, XMLParser CPP MIN_FUNCTION_CHARS MIN_METHOD_LINES);
      (XML CSHARP, XMLParser CSHARP MIN_FUNCTION_CHARS MIN_METHOD_LINES);
      (XML JAVA, XMLParser JAVA MIN_FUNCTION_CHARS MIN_METHOD_LINES) ].

End Registry.

(** ** [Parser.ParseFiles] *)

(** What the orchestrator does to its collaborators, in order. *)
Inductive Event : Type :=
| Debug (message : string)                          (* [Logger.Debug]   *)
| CallAddFile (l : Language) (file base : string)   (* [parser.AddFile] *)
| CallParse (l : Language).                         (* [p.Parse()]      *)

(** The state threaded through the routing loop: the local array
    [filenames], the static registry and the calls made so far. *)
Record Routing : Type :=
  { pushed : list string; registry : Map; calls : list Event }.

(** The body of [files.forEach(file => ...)]. *)
Definition routeFile (basePath : string) (st : Routing) (file : string)
  : Routing :=
  let r := getFileNameAndLanguage file basePath in
  match lang r with
  | None => st                                              (* [!lang] *)
  | Some l =>
      let names := pushed st ++ [filename r] in
      match Map_get (registry st) l with
      | None =>
          {| pushed := names;
             registry := registry st;
             calls := calls st ++
               [Debug "Could not associate a parser with specified language"] |}
      | Some parser =>
          {| pushed := names;
             registry :=
               Map_set (registry st) l (AddFile parser (filename r) basePath);
             calls := calls st ++
               [Debug ("Parsing " ++ filename r);
                CallAddFile l (filename r) basePath] |}
      end
  end.

Definition route (basePath : string) (files : list string) (st : Routing)
  : Routing :=
  fold_left (routeFile basePath) files st.

Record Output : Type :=
  { filenames : list string; result : list HashData }.

(** The outcome of one call: how the returned promise settles, the registry
    it leaves behind, and the calls it made. *)
Record Run : Type :=
  { promise : Settled Output; parsersAfter : Map; events : list Event }.

(** [ParseFiles] from the routing loop on, for the files of the walk. *)
Definition parseWalked (basePath : string) (files : list string) (reg : Map)
  : Run :=
  let st := route basePath files
              {| pushed := []; registry := reg; calls := [] |} in
  (* Array.from(this.parsers.values()).map(p => p.Parse()) *)
  let parserPromises := map (fun p => fst (Parse p)) (Map_values (registry st)) in
  {| promise :=
       match Promise_all parserPromises with
       | Fulfilled parserResults =>
           Fulfilled {| filenames := pushed st;
                        result := concat parserResults |}
       | Rejected e => Rejected e
       end;
     parsersAfter := map (fun e => (fst e, snd (Parse (snd e)))) (registry st);
     events := calls st ++ map CallParse (Map_keys (registry st)) |}.

(** [Parser.ParseFiles(basePath)], on the tree [root] found at [basePath]
    and the registry [reg]; the logger's set-up calls are left out. *)
Definition ParseFiles (root : Node) (basePath : string) (reg : Map) : Run :=
  match getAllFiles basePath root with
  | None =>
      {| promise := Rejected WalkFailed; parsersAfter := reg; events := [] |}
  | Some files => parseWalked basePath files reg
  end.

(** ** Notions used to state the properties *)

(** The callback of [readdirSync(currDir).forEach]. *)
Definition visit (currDir : string) (acc : list string)
  (entry : string * Node) : list string :=
  let (file, child) := entry in
  if gitRegexTest file then acc
  else
    match statSync child with
    | Some st =>
        if isDirectory st then
          match recursivelyGetFiles (Path.join currDir file) child acc with
          | Some acc' => acc'
          | None => acc
          end
        else acc ++ [Path.join currDir file]
    | None => acc
    end.




(** The classifier recognizes the language of a walked path. *)
Definition recognized (basePath file : string) : bool :=
  match lang (getFileNameAndLanguage file basePath) with
  | Some _ => true
  | None => false
  end.

Definition relativeName (basePath file : string) : string :=
  filename (getFileNameAndLanguage file basePath).

(** The extension table in the words of the specification. *)
Definition extensionTable : list (string * Language) :=
  [ ("py", ANTLR PYTHON); ("js", ANTLR JS); ("cpp", XML CPP);
    ("cs", XML CSHARP); ("java", XML JAVA) ].


(** How often [Parse()] was called on the backend of language [l]. *)
Definition parseCalls (l : Language) (evs : list Event) : nat :=
  length
    (filter
       (fun e => match e with
                 | CallParse l' => if Language_eq_dec l l' then true else false
                 | _ => false
                 end)
       evs).

(** The routing state [ParseFiles] starts from. *)
Definition start (reg : Map) : Routing :=
  {| pushed := []; registry := reg; calls := [] |}.

(** Backends for the examples: every queued file holds one function [f] of
    five lines, and a variant whose Javascript backend rejects. *)
Definition oneFunctionPerFile (l : Language) (queue : list (string * string))
  : Settled (list LocatedFunction) :=
  Fulfilled
    (map (fun fb =>
            {| record := {| fileName := fst fb; languageTag := l; name := "f";
                            startLine := 1; endLine := 5;
                            fingerprint := "h" |};
               lineCount := 5; charCount := 40 |})
         queue).

Definition javascriptRejects (l : Language) (queue : list (string * string))
  : Settled (list LocatedFunction) :=
  match l with
  | ANTLR JS => Rejected (BackendFailed "javascript")
  | _ => oneFunctionPerFile l queue
  end.

(** A failed cycle that leaves the queue as it was. *)
Definition keepsQueue (l : Language) (queue : list (string * string))
  : list (string * string) := queue.

(** Scenario A of the specification, and a name that starts with a line
    feed. *)
Definition scenarioA : Node :=
  Dir [("a.js", File); ("b.py", File); ("c.txt", File)].

Definition lineFeedGit : string := String (ascii_of_nat 10) "git".

(** The registry with every queue emptied. *)
Definition emptied (m : Map) : Map :=
  map (fun e => (fst e, withBuffer (snd e) [])) m.

(** The relative names that the routing loop pushes for a list of walked
    paths. *)
Definition walkedNames (basePath : string) (files : list string)
  : list string :=
  map (relativeName basePath) (filter (recognized basePath) files).

(** The [filenames] of a run that returned. *)
Definition fulfilledNames (r : Run) : option (list string) :=
  match promise r with
  | Fulfilled out => Some (filenames out)
  | Rejected _ => None
  end.

(** A tree with files of an unrecognized extension at two depths and a
    source file whose name the regular expression matches. *)
Definition docsAndSources : Node :=
  Dir [ ("README.md", File); ("agit.js", File);
        ("src", Dir [("main.js", File); ("notes.txt", File)]) ].

(** A registry that knows Javascript only. *)
Definition javascriptOnly : Map :=
  Map_new [ (ANTLR JS,
             Javascript oneFunctionPerFile keepsQueue MIN_METHOD_LINES MIN_FUNCTION_CHARS) ].

(** ** Further notions: the walk without an accumulator *)

(** The files below [n] in the order of a depth-first walk of the listings,
    written without the shared array. *)
Fixpoint listing (currDir : string) (n : Node) : list string :=
  match n with
  | Dir entries =>
      flat_map
        (fun e : string * Node =>
           if gitRegexTest (fst e) then []
           else
             match snd e with
             | File => [Path.join currDir (fst e)]
             | Dir _ | Locked | Gone =>
                 listing (Path.join currDir (fst e)) (snd e)
             end)
        entries
  | File | Locked | Gone => []
  end.

(** [s.includes(pat)] *)
Fixpoint occurs (pat s : string) : bool :=
  String.prefix pat s
  || match s with
     | EmptyString => false
     | String _ s' => occurs pat s'
     end.

(** The code unit [c] is among those of [s]. *)
Fixpoint containsUnit (c : ascii) (s : string) : bool :=
  match s with
  | EmptyString => false
  | String d s' => Ascii.eqb d c || containsUnit c s'
  end.


(** ** Further notions: routing *)

(** The classifier gives [file] the language [l]. *)
Definition hasLanguage (basePath : string) (l : Language) (file : string)
  : bool :=
  match lang (getFileNameAndLanguage file basePath) with
  | Some l' => if Language_eq_dec l l' then true else false
  | None => false
  end.

(** The queue entries that the walked [files] of language [l] give rise to,
    in walk order. *)
Definition queueFor (basePath : string) (files : list string) (l : Language)
  : list (string * string) :=
  map (fun file => (relativeName basePath file, basePath))
      (filter (hasLanguage basePath l) files).

(** The arguments of the [AddFile] calls of a trace, in order. *)
Definition addFileCalls (evs : list Event) : list (string * string) :=
  flat_map
    (fun e => match e with
              | CallAddFile _ file base => [(file, base)]
              | _ => []
              end)
    evs.

(** The diagnostic of the missing-backend branch. *)
Definition missingBackendDiagnostic : Event :=
  Debug "Could not associate a parser with specified language".

Definition isMissingBackendDiagnostic (e : Event) : bool :=
  match e with
  | Debug m => (m =? "Could not associate a parser with specified language")%string
  | _ => false
  end.

(** ** Further notions: ordinary paths and trees *)

(** A name that a directory entry can bear: not empty, not [.], not [..],
    without [/]. *)
Definition plainSegment (seg : string) : bool :=
  negb (seg =? "")%string && negb (seg =? ".")%string
  && negb (seg =? "..")%string && negb (containsUnit "/" seg).

(** A path that [path.normalize] leaves alone: plain segments separated by
    single slashes, with or without a leading slash, without a trailing
    one. *)
Definition cleanPath (p : string) : bool :=
  match Js.split "/" p with
  | EmptyString :: seg :: segs => forallb plainSegment (seg :: segs)
  | segs => forallb plainSegment segs
  end.

Fixpoint distinct (l : list string) : bool :=
  match l with
  | [] => true
  | x :: l' => negb (existsb (String.eqb x) l') && distinct l'
  end.

(** A tree as a file system presents it: in every directory the names are
    plain and distinct. *)
Fixpoint simpleTree (n : Node) : bool :=
  match n with
  | Dir entries =>
      distinct (map fst entries)
      && forallb (fun e : string * Node =>
                    plainSegment (fst e) && simpleTree (snd e))
           entries
  | File | Locked | Gone => true
  end.

(** The walked files as lists of names from the root down, in walk order. *)
Fixpoint relativePaths (n : Node) : list (list string) :=
  match n with
  | Dir entries =>
      flat_map
        (fun e : string * Node =>
           if gitRegexTest (fst e) then []
           else
             match snd e with
             | File => [[fst e]]
             | Dir _ | Locked | Gone =>
                 map (cons (fst e)) (relativePaths (snd e))
             end)
        entries
  | File | Locked | Gone => []
  end.

(** The language that the classifier reads off a relative name. *)
Definition languageOfName (relative : string) : option Language :=
  match loweredExtension relative with
  | Some ext => languageOfExtension ext
  | None => None
  end.

Definition recognizedName (relative : string) : bool :=
  match languageOfName relative with
  | Some _ => true
  | None => false
  end.

(** The root-relative name of a walked file: [./] and the names joined. *)
Definition dotSlash (segs : list string) : string :=
  ("./" ++ Js.join "/" segs)%string.

(** ** The semantic predicates and actions of the generated lexer *)

Module JavaScriptLexer.

Section Base.

(** The state of the lexer and the methods of [JavaScriptLexerBase] that
    the generated class calls; the base class is not among the sources at
    hand.  Predicates read the state, actions return the state they leave
    behind. *)
Variable Lexer : Type.
Variables IsStartOfFile IsRegexPossible IsInTemplateString IsStrictMode :
  Lexer -> bool.
Variables ProcessOpenBrace ProcessCloseBrace ProcessStringLiteral
  IncreaseTemplateDepth DecreaseTemplateDepth : Lexer -> Lexer.

Definition OpenBrace_action (this : Lexer) (actionIndex : Z) : Lexer :=
  if (actionIndex =? 0)%Z then ProcessOpenBrace this else this.

Definition CloseBrace_action (this : Lexer) (actionIndex : Z) : Lexer :=
  if (actionIndex =? 1)%Z then ProcessCloseBrace this else this.

Definition StringLiteral_action (this : Lexer) (actionIndex : Z) : Lexer :=
  if (actionIndex =? 2)%Z then ProcessStringLiteral this else this.

Definition BackTick_action (this : Lexer) (actionIndex : Z) : Lexer :=
  if (actionIndex =? 3)%Z then IncreaseTemplateDepth this else this.

Definition BackTickInside_action (this : Lexer) (actionIndex : Z) : Lexer :=
  if (actionIndex =? 4)%Z then DecreaseTemplateDepth this else this.

(** [action(_localctx, ruleIndex, actionIndex)] *)
Definition action (this : Lexer) (ruleIndex actionIndex : Z) : Lexer :=
  if (ruleIndex =? 8)%Z then OpenBrace_action this actionIndex
  else if (ruleIndex =? 10)%Z then CloseBrace_action this actionIndex
  else if (ruleIndex =? 119)%Z then StringLiteral_action this actionIndex
  else if (ruleIndex =? 120)%Z then BackTick_action this actionIndex
  else if (ruleIndex =? 126)%Z then BackTickInside_action this actionIndex
  else this.

Definition HashBangLine_sempred (this : Lexer) (predIndex : Z) : bool :=
  if (predIndex =? 0)%Z then IsStartOfFile this else true.

Definition RegularExpressionLiteral_sempred (this : Lexer) (predIndex : Z)
  : bool :=
  if (predIndex =? 1)%Z then IsRegexPossible this else true.

Definition TemplateCloseBrace_sempred (this : Lexer) (predIndex : Z) : bool :=
  if (predIndex =? 2)%Z then IsInTemplateString this else true.

Definition OctalIntegerLiteral_sempred (this : Lexer) (predIndex : Z) : bool :=
  if (predIndex =? 3)%Z then negb (IsStrictMode this) else true.

Definition Implements_sempred (this : Lexer) (predIndex : Z) : bool :=
  if (predIndex =? 4)%Z then IsStrictMode this else true.

Definition StrictLet_sempred (this : Lexer) (predIndex : Z) : bool :=
  if (predIndex =? 5)%Z then IsStrictMode this else true.

Definition NonStrictLet_sempred (this : Lexer) (predIndex : Z) : bool :=
  if (predIndex =? 6)%Z then negb (IsStrictMode this) else true.

Definition Private_sempred (this : Lexer) (predIndex : Z) : bool :=
  if (predIndex =? 7)%Z then IsStrictMode this else true.

Definition Public_sempred (this : Lexer) (predIndex : Z) : bool :=
  if (predIndex =? 8)%Z then IsStrictMode this else true.

Definition Interface_sempred (this : Lexer) (predIndex : Z) : bool :=
  if (predIndex =? 9)%Z then IsStrictMode this else true.

Definition Package_sempred (this : Lexer) (predIndex : Z) : bool :=
  if (predIndex =? 10)%Z then IsStrictMode this else true.

Definition Protected_sempred (this : Lexer) (predIndex : Z) : bool :=
  if (predIndex =? 11)%Z then IsStrictMode this else true.

Definition Static_sempred (this : Lexer) (predIndex : Z) : bool :=
  if (predIndex =? 12)%Z then IsStrictMode this else true.

(** [sempred(_localctx, ruleIndex, predIndex)] *)
Definition sempred (this : Lexer) (ruleIndex predIndex : Z) : bool :=
  if (ruleIndex =? 0)%Z then HashBangLine_sempred this predIndex
  else if (ruleIndex =? 3)%Z
       then RegularExpressionLiteral_sempred this predIndex
  else if (ruleIndex =? 9)%Z then TemplateCloseBrace_sempred this predIndex
  else if (ruleIndex =? 64)%Z then OctalIntegerLiteral_sempred this predIndex
  else if (ruleIndex =? 109)%Z then Implements_sempred this predIndex
  else if (ruleIndex =? 110)%Z then StrictLet_sempred this predIndex
  else if (ruleIndex =? 111)%Z then NonStrictLet_sempred this predIndex
  else if (ruleIndex =? 112)%Z then Private_sempred this predIndex
  else if (ruleIndex =? 113)%Z then Public_sempred this predIndex
  else if (ruleIndex =? 114)%Z then Interface_sempred this predIndex
  else if (ruleIndex =? 115)%Z then Package_sempred this predIndex
  else if (ruleIndex =? 116)%Z then Protected_sempred this predIndex
  else if (ruleIndex =? 117)%Z then Static_sempred this predIndex
  else true.

(** The pairs of rule and predicate index that are gated on strict mode,
    and the pairs that are gated on its absence. *)
Definition strictOnly : list (Z * Z) :=
  [ (109, 4); (110, 5); (112, 7); (113, 8); (114, 9); (115, 10);
    (116, 11); (117, 12) ]%Z.

Definition sloppyOnly : list (Z * Z) := [ (64, 3); (111, 6) ]%Z.

(** The pairs of rule and action index that carry an action. *)
Definition withAction : list (Z * Z) :=
  [ (8, 0); (10, 1); (119, 2); (120, 3); (126, 4) ]%Z.

End Base.

End JavaScriptLexer.

(** ** String lemmas *)

Lemma prefix_app (b rest : string) : String.prefix b (b ++ rest)%string = true.
Proof.
  induction b as [|c b IH]; simpl.
  - now destruct rest.
  - destruct (ascii_dec c c) as [_|ne]; [exact IH | now elim ne].
Qed.

Lemma slice_app (b rest : string) :
  Js.slice (String.length b) (b ++ rest)%string = rest.
Proof. induction b as [|c b IH]; simpl; [reflexivity | exact IH]. Qed.

Lemma replace_prefix (b rest rep : string) :
  Js.replace (b ++ rest)%string b rep = (rep ++ rest)%string.
Proof.
  destruct b as [|c b].
  - simpl. destruct rest; reflexivity.
  - cbn [Js.replace append]. change (String c (b ++ rest)%string)
      with (String c b ++ rest)%string.
    rewrite prefix_app, slice_app. reflexivity.
Qed.




(** ** The tree walk *)

Lemma Node_nested_ind (P : Node -> Prop) :
  P File -> P Locked -> P Gone ->
  (forall entries, Forall (fun e => P (snd e)) entries -> P (Dir entries)) ->
  forall n, P n.
Proof.
  intros HF HL HG HD.
  fix self 1. intros [|entries| |]; try assumption.
  apply HD. induction entries as [|[file child] entries IH]; constructor.
  - apply self.
  - exact IH.
Qed.

Lemma recursivelyGetFiles_Dir (currDir : string) entries acc :
  recursivelyGetFiles currDir (Dir entries) acc
  = Some (fold_left (visit currDir) entries acc).
Proof. reflexivity. Qed.




(** An entry that the callback leaves [acc] alone for can be dropped from
    the listing. *)
Lemma walk_skips currDir es1 e es2 :
  (forall acc, visit currDir acc e = acc) ->
  forall acc,
    recursivelyGetFiles currDir (Dir (es1 ++ e :: es2)) acc
    = recursivelyGetFiles currDir (Dir (es1 ++ es2)) acc.
Proof.
  intros Hskip acc. rewrite !recursivelyGetFiles_Dir, !fold_left_app.
  cbn [fold_left]. now rewrite Hskip.
Qed.


Lemma visit_git currDir file child acc :
  gitRegexTest file = true -> visit currDir acc (file, child) = acc.
Proof. unfold visit. now intros ->. Qed.

Lemma gitRegexTest_shape file :
  gitRegexTest file = true <->
  exists c rest,
    file = String c ("git" ++ rest) /\ Js.isLineTerminator c = false.
Proof.
  split.
  - destruct file as [|c file]; [discriminate|]. cbn [gitRegexTest].
    intros H. apply andb_true_iff in H as [Hc Hp].
    apply negb_true_iff in Hc.
    destruct file as [|g file]; cbn [String.prefix] in Hp; [discriminate Hp|].
    destruct (ascii_dec "g" g) as [<-|]; [|discriminate Hp].
    destruct file as [|i file]; cbn [String.prefix] in Hp; [discriminate Hp|].
    destruct (ascii_dec "i" i) as [<-|]; [|discriminate Hp].
    destruct file as [|t file]; cbn [String.prefix] in Hp; [discriminate Hp|].
    destruct (ascii_dec "t" t) as [<-|]; [|discriminate Hp].
    now exists c, file.
  - intros (c & rest & -> & Hc). simpl. rewrite Hc. simpl.
    now destruct rest.
Qed.


(** ** The registry as a map *)

Lemma Map_get_None_keys m k : Map_get m k = None <-> ~ In k (Map_keys m).
Proof.
  induction m as [|[k' v] m IH]; simpl.
  - split; [intros _ [] | reflexivity].
  - destruct (Language_eq_dec k k') as [->|ne].
    + split; [discriminate | intros H; elim H; now left].
    + rewrite IH. split; [intros H [E | Hin]; [now elim ne | now elim H] |].
      intros H Hin. apply H. now right.
Qed.

Lemma Map_set_present_keys m k p v :
  Map_get m k = Some p -> Map_keys (Map_set m k v) = Map_keys m.
Proof.
  induction m as [|[k' v'] m IH]; simpl; [discriminate|].
  destruct (Language_eq_dec k k'); [reflexivity|].
  intros H. simpl. f_equal. exact (IH H).
Qed.

Lemma Map_set_present_map (f : IParser -> IParser) m k p v :
  Map_get m k = Some p -> f v = f p ->
  map (fun e => (fst e, f (snd e))) (Map_set m k v)
  = map (fun e => (fst e, f (snd e))) m.
Proof.
  intros Hget Hf. induction m as [|[k' v'] m IH]; simpl in *; [discriminate|].
  destruct (Language_eq_dec k k').
  - injection Hget as ->. simpl. now rewrite Hf.
  - simpl. f_equal. exact (IH Hget).
Qed.

(** ** The routing loop *)

Lemma routeFile_unsupported basePath st file :
  lang (getFileNameAndLanguage file basePath) = None ->
  routeFile basePath st file = st.
Proof. unfold routeFile. now intros ->. Qed.

Lemma route_app basePath files1 files2 st :
  route basePath (files1 ++ files2) st
  = route basePath files2 (route basePath files1 st).
Proof. apply fold_left_app. Qed.

Lemma routeFile_pushed basePath st file :
  pushed (routeFile basePath st file)
  = pushed st ++ walkedNames basePath [file].
Proof.
  unfold routeFile, walkedNames, recognized, relativeName. simpl.
  destruct (lang (getFileNameAndLanguage file basePath)) as [l|].
  - now destruct (Map_get (registry st) l).
  - now rewrite app_nil_r.
Qed.

Lemma walkedNames_app basePath files1 files2 :
  walkedNames basePath (files1 ++ files2)
  = walkedNames basePath files1 ++ walkedNames basePath files2.
Proof. unfold walkedNames. now rewrite filter_app, map_app. Qed.

Lemma route_pushed basePath files :
  forall st,
    pushed (route basePath files st) = pushed st ++ walkedNames basePath files.
Proof.
  induction files as [|file files IH]; intros st.
  - simpl. now rewrite app_nil_r.
  - change (file :: files) with ([file] ++ files).
    rewrite walkedNames_app, app_assoc, <- routeFile_pushed. apply IH.
Qed.

Lemma routeFile_registry basePath st st' file :
  registry st = registry st' ->
  registry (routeFile basePath st file) = registry (routeFile basePath st' file).
Proof.
  unfold routeFile. intros H.
  destruct (lang (getFileNameAndLanguage file basePath)) as [l|];
    [|exact H].
  rewrite <- H. now destruct (Map_get (registry st) l).
Qed.

Lemma route_registry basePath files :
  forall st st',
    registry st = registry st' ->
    registry (route basePath files st) = registry (route basePath files st').
Proof.
  induction files as [|file files IH]; intros st st' H; [exact H|].
  apply IH, routeFile_registry, H.
Qed.

Lemma routeFile_keys basePath st file :
  Map_keys (registry (routeFile basePath st file)) = Map_keys (registry st).
Proof.
  unfold routeFile.
  destruct (lang (getFileNameAndLanguage file basePath)) as [l|];
    [|reflexivity].
  destruct (Map_get (registry st) l) as [p|] eqn:E; [|reflexivity].
  simpl. eapply Map_set_present_keys, E.
Qed.

Lemma route_keys basePath files :
  forall st,
    Map_keys (registry (route basePath files st)) = Map_keys (registry st).
Proof.
  induction files as [|file files IH]; intros st; [reflexivity|].
  simpl. now rewrite IH, routeFile_keys.
Qed.

Lemma route_missing basePath files st l :
  Map_get (registry st) l = None ->
  Map_get (registry (route basePath files st)) l = None.
Proof. rewrite !Map_get_None_keys, route_keys. trivial. Qed.

Lemma routeFile_parseCalls basePath st file l :
  parseCalls l (calls (routeFile basePath st file)) = parseCalls l (calls st).
Proof.
  unfold routeFile, parseCalls.
  destruct (lang (getFileNameAndLanguage file basePath)) as [l'|];
    [|reflexivity].
  destruct (Map_get (registry st) l'); simpl;
    rewrite filter_app, length_app; simpl; lia.
Qed.

Lemma route_parseCalls basePath files l :
  forall st,
    parseCalls l (calls (route basePath files st)) = parseCalls l (calls st).
Proof.
  induction files as [|file files IH]; intros st; [reflexivity|].
  simpl. now rewrite IH, routeFile_parseCalls.
Qed.

(** Routing only ever changes queues. *)
Lemma routeFile_emptied basePath st file :
  emptied (registry (routeFile basePath st file)) = emptied (registry st).
Proof.
  unfold routeFile.
  destruct (lang (getFileNameAndLanguage file basePath)) as [l|];
    [|reflexivity].
  destruct (Map_get (registry st) l) as [p|] eqn:E; [|reflexivity].
  cbn [registry]. unfold emptied.
  now apply (Map_set_present_map (fun q => withBuffer q [])) with (p := p).
Qed.

Lemma route_emptied basePath files :
  forall st,
    emptied (registry (route basePath files st)) = emptied (registry st).
Proof.
  induction files as [|file files IH]; intros st; [reflexivity|].
  simpl. now rewrite IH, routeFile_emptied.
Qed.

Lemma emptied_fresh (reg : Map) :
  (forall l p, In (l, p) reg -> buffer p = []) -> emptied reg = reg.
Proof.
  unfold emptied.
  induction reg as [|[l p] reg IH]; intros H; [reflexivity|].
  cbn [map]. rewrite IH by (intros l' p' Hin; eapply H; right; exact Hin).
  specialize (H l p (or_introl eq_refl)).
  destruct p; unfold withBuffer; simpl in *. now subst.
Qed.

(** ** [Promise.all] *)

Lemma Promise_all_fulfilled {A : Type} (vs : list A) :
  Promise_all (map Fulfilled vs) = Fulfilled vs.
Proof. induction vs as [|v vs IH]; simpl; [reflexivity | now rewrite IH]. Qed.

Lemma Promise_all_rejected {A : Type} (ps : list (Settled A)) e :
  In (Rejected e) ps -> exists e', Promise_all ps = Rejected e'.
Proof.
  induction ps as [|[v|e0] ps IH]; intros Hin; [destruct Hin | |].
  - destruct Hin as [Heq | Hin]; [discriminate Heq|].
    destruct (IH Hin) as [e' E]. exists e'. simpl. now rewrite E.
  - now exists e0.
Qed.

(** When every [Parse()] has fulfilled, every queue is empty. *)
Lemma fulfilled_emptied (m : Map) :
  forall vs,
    Promise_all (map (fun p => fst (Parse p)) (Map_values m)) = Fulfilled vs ->
    map (fun e => (fst e, snd (Parse (snd e)))) m = emptied m.
Proof.
  unfold emptied, Map_values.
  induction m as [|[l p] m IH]; intros vs H; [reflexivity|].
  cbn [map fst snd] in *. unfold Parse at 1 in H. unfold Parse at 1.
  destruct (locate p (buffer p)) as [fs|e]; cbn [fst snd Promise_all] in *;
    [|discriminate H].
  destruct (Promise_all _) as [ws|e] eqn:E; [|discriminate H].
  now rewrite (IH ws).
Qed.

(** ** Properties of the specification *)

Lemma registry_without basePath reg files1 file files2 :
  registry (routeFile basePath (route basePath files1 (start reg)) file)
  = registry (route basePath files1 (start reg)) ->
  registry (route basePath (files1 ++ file :: files2) (start reg))
  = registry (route basePath (files1 ++ files2) (start reg)).
Proof.
  intros H. rewrite !route_app. cbn [route fold_left].
  apply route_registry, H.
Qed.

(** C1, as stated, fails on Scenario A of the specification: [c.txt] is
    walked and classified as unsupported, and its relative name is absent
    from [filenames]. *)
Lemma C1_scenarioA_omits_unsupported :
  getAllFiles "proj" scenarioA = Some ["proj/a.js"; "proj/b.py"; "proj/c.txt"]
  /\ getFileNameAndLanguage "proj/c.txt" "proj"
     = {| filename := "./c.txt"; lang := None |}
  /\ fulfilledNames (ParseFiles scenarioA "proj" (parsers oneFunctionPerFile keepsQueue))
     = Some ["./a.js"; "./b.py"]
  /\ ~ In "./c.txt" ["./a.js"; "./b.py"].
Proof.
  repeat split; try reflexivity.
  intros [H | [H | []]]; discriminate H.
Qed.

(** C1, amended: a walked file whose extension is not recognized is dropped
    by the routing loop before [filenames.push]: the loop state is left as
    it was (no name, no [AddFile], no diagnostic), and the whole run is the
    run over the walk without that file, so the file adds no record and
    does not make the run fail. *)
Theorem C1_unsupported_file_is_dropped
  (root : Node) (basePath : string) (reg : Map)
  (files1 : list string) (file : string) (files2 : list string) :
  getAllFiles basePath root = Some (files1 ++ file :: files2) ->
  lang (getFileNameAndLanguage file basePath) = None ->
  (forall st, routeFile basePath st file = st)
  /\ ParseFiles root basePath reg
     = parseWalked basePath (files1 ++ files2) reg
  /\ (forall out,
        promise (ParseFiles root basePath reg) = Fulfilled out ->
        filenames out
        = walkedNames basePath files1 ++ walkedNames basePath files2).
Proof.
  intros Hwalk Hlang.
  assert (Hstep : forall st, routeFile basePath st file = st)
    by (intros st; now apply routeFile_unsupported).
  assert (Hrun : ParseFiles root basePath reg
                 = parseWalked basePath (files1 ++ files2) reg).
  { unfold ParseFiles. rewrite Hwalk. unfold parseWalked.
    rewrite !route_app. cbn [route fold_left]. now rewrite Hstep. }
  repeat split; try assumption.
  intros out. rewrite Hrun. unfold parseWalked. cbn [promise].
  destruct (Promise_all _); [|discriminate].
  intros [= <-]. cbn [filenames]. rewrite route_pushed, walkedNames_app.
  reflexivity.
Qed.

Lemma C1_unsupported_file_is_dropped_witness :
  ParseFiles scenarioA "proj" (parsers oneFunctionPerFile keepsQueue)
  = parseWalked "proj" ["proj/a.js"; "proj/b.py"] (parsers oneFunctionPerFile keepsQueue).
Proof.
  exact (proj1 (proj2
    (C1_unsupported_file_is_dropped scenarioA "proj"
       (parsers oneFunctionPerFile keepsQueue) ["proj/a.js"; "proj/b.py"] "proj/c.txt" []
       eq_refl eq_refl))).
Defined.




(** C3: if the [Parse()] of any backend of the registry rejects, on the
    queue that routing has left it with, the promise of [ParseFiles]
    rejects: there is no output value, however the other backends settle. *)
Theorem C3_backend_failure_fails_the_run
  (root : Node) (basePath : string) (reg : Map) (files : list string)
  (l : Language) (p : IParser) (e : Failure) :
  getAllFiles basePath root = Some files ->
  In (l, p) (registry (route basePath files (start reg))) ->
  fst (Parse p) = Rejected e ->
  (exists e', promise (ParseFiles root basePath reg) = Rejected e')
  /\ (forall out, promise (ParseFiles root basePath reg) <> Fulfilled out).
Proof.
  intros Hwalk Hin Hrej.
  assert (H : exists e', promise (ParseFiles root basePath reg) = Rejected e').
  { unfold ParseFiles. rewrite Hwalk. unfold parseWalked. cbn [promise].
    fold (start reg).
    destruct (Promise_all_rejected
                (map (fun q => fst (Parse q))
                   (Map_values (registry (route basePath files (start reg)))))
                e) as [e' E].
    - rewrite <- Hrej. apply (in_map (fun q => fst (Parse q))).
      exact (in_map snd _ (l, p) Hin).
    - exists e'. now rewrite E. }
  split; [exact H|]. destruct H as [e' E]. intros out. rewrite E. discriminate.
Qed.

Lemma C3_backend_failure_fails_the_run_witness :
  (exists e', promise (ParseFiles scenarioA "proj" (parsers javascriptRejects keepsQueue))
              = Rejected e')
  /\ (forall out, promise (ParseFiles scenarioA "proj" (parsers javascriptRejects keepsQueue))
                  <> Fulfilled out).
Proof.
  refine (C3_backend_failure_fails_the_run scenarioA "proj"
            (parsers javascriptRejects keepsQueue)
            ["proj/a.js"; "proj/b.py"; "proj/c.txt"]
            (ANTLR JS)
            (AddFile (Javascript javascriptRejects keepsQueue MIN_METHOD_LINES
                        MIN_FUNCTION_CHARS) "./a.js" "proj")
            (BackendFailed "javascript") eq_refl _ eq_refl).
  left. reflexivity.
Defined.

(** C4: after the routing loop, [Parse()] is called exactly once on the
    backend of every key of the registry and on no other, whatever its
    queue holds, and never during routing; when all those promises fulfil,
    the run fulfils with the accumulated [filenames] and the concatenation
    of the backends' lists in registry order. *)
Theorem C4_every_backend_parsed_once_and_flattened
  (root : Node) (basePath : string) (reg : Map) (files : list string) :
  getAllFiles basePath root = Some files ->
  NoDup (Map_keys reg) ->
  let st := route basePath files (start reg) in
  let run := ParseFiles root basePath reg in
  events run = calls st ++ map CallParse (Map_keys reg)
  /\ (forall l, parseCalls l (calls st) = 0)
  /\ (forall l, In l (Map_keys reg) -> parseCalls l (events run) = 1)
  /\ (forall l, ~ In l (Map_keys reg) -> parseCalls l (events run) = 0)
  /\ (forall results,
        map (fun p => fst (Parse p)) (Map_values (registry st))
        = map Fulfilled results ->
        promise run
        = Fulfilled {| filenames := pushed st; result := concat results |}).
Proof.
  intros Hwalk Hnodup st run.
  assert (Hev : events run = calls st ++ map CallParse (Map_keys reg)).
  { unfold run, ParseFiles. rewrite Hwalk. unfold parseWalked. cbn [events].
    fold (start reg). fold st. unfold st at 2. now rewrite route_keys. }
  assert (Hroute : forall l, parseCalls l (calls st) = 0).
  { intros l. unfold st. now rewrite route_parseCalls. }
  assert (Hcount : forall l evs1 evs2,
             parseCalls l (evs1 ++ evs2) = parseCalls l evs1 + parseCalls l evs2).
  { intros l evs1 evs2. unfold parseCalls. now rewrite filter_app, length_app. }
  assert (Hkeys : forall l ks,
             NoDup ks ->
             parseCalls l (map CallParse ks) = if in_dec Language_eq_dec l ks then 1 else 0).
  { intros l ks Hnd. induction Hnd as [|k ks Hnotin _ IH]; [reflexivity|].
    unfold parseCalls in *. cbn [map filter].
    destruct (Language_eq_dec l k) as [->|ne].
    - cbn [length]. rewrite IH.
      destruct (in_dec Language_eq_dec k ks) as [Hin|_]; [now elim Hnotin|].
      destruct (in_dec Language_eq_dec k (k :: ks)) as [_|Hout];
        [reflexivity | elim Hout; now left].
    - rewrite IH.
      destruct (in_dec Language_eq_dec l ks) as [Hin|Hout];
        destruct (in_dec Language_eq_dec l (k :: ks)) as [Hin'|Hout'];
        try reflexivity.
      + elim Hout'. now right.
      + destruct Hin' as [E|Hin']; [now elim ne | now elim Hout]. }
  repeat split.
  - exact Hev.
  - exact Hroute.
  - intros l Hin. rewrite Hev, Hcount, Hroute, (Hkeys _ _ Hnodup).
    now destruct (in_dec Language_eq_dec l (Map_keys reg)).
  - intros l Hout. rewrite Hev, Hcount, Hroute, (Hkeys _ _ Hnodup).
    now destruct (in_dec Language_eq_dec l (Map_keys reg)).
  - intros results Hres. unfold run, ParseFiles. rewrite Hwalk.
    unfold parseWalked. cbn [promise]. fold (start reg). fold st.
    now rewrite Hres, Promise_all_fulfilled.
Qed.

Lemma C4_every_backend_parsed_once_and_flattened_witness :
  events (ParseFiles scenarioA "proj" (parsers oneFunctionPerFile keepsQueue))
  = [ Debug "Parsing ./a.js"; CallAddFile (ANTLR JS) "./a.js" "proj";
      Debug "Parsing ./b.py"; CallAddFile (ANTLR PYTHON) "./b.py" "proj";
      CallParse (ANTLR JS); CallParse (ANTLR PYTHON); CallParse (XML CPP);
      CallParse (XML CSHARP); CallParse (XML JAVA) ].
Proof.
  assert (Hnodup : NoDup (Map_keys (parsers oneFunctionPerFile keepsQueue))).
  { repeat constructor; simpl; intuition discriminate. }
  exact (proj1
    (C4_every_backend_parsed_once_and_flattened scenarioA "proj"
       (parsers oneFunctionPerFile keepsQueue) ["proj/a.js"; "proj/b.py"; "proj/c.txt"]
       eq_refl Hnodup)).
Defined.

(** C5: a walked file whose language is recognized but has no backend in
    the registry keeps its relative name in [filenames]; the routing step
    emits the diagnostic and touches no backend, so the registry, the
    records and a failure of the run are those of the run without the
    file. *)
Theorem C5_missing_backend_keeps_name_only
  (root : Node) (basePath : string) (reg : Map)
  (files1 : list string) (file : string) (files2 : list string)
  (l : Language) :
  getAllFiles basePath root = Some (files1 ++ file :: files2) ->
  lang (getFileNameAndLanguage file basePath) = Some l ->
  Map_get reg l = None ->
  let run := ParseFiles root basePath reg in
  let without := parseWalked basePath (files1 ++ files2) reg in
  (forall st,
      Map_get (registry st) l = None ->
      routeFile basePath st file
      = {| pushed := pushed st ++ [relativeName basePath file];
           registry := registry st;
           calls := calls st ++
             [Debug "Could not associate a parser with specified language"] |})
  /\ parsersAfter run = parsersAfter without
  /\ (forall out',
        promise without = Fulfilled out' ->
        promise run
        = Fulfilled
            {| filenames := walkedNames basePath files1
                            ++ relativeName basePath file
                            :: walkedNames basePath files2;
               result := result out' |})
  /\ (forall e, promise without = Rejected e -> promise run = Rejected e).
Proof.
  intros Hwalk Hlang Hget run without.
  assert (Hstep : forall st,
             Map_get (registry st) l = None ->
             routeFile basePath st file
             = {| pushed := pushed st ++ [relativeName basePath file];
                  registry := registry st;
                  calls := calls st ++
                    [Debug "Could not associate a parser with specified language"] |}).
  { intros st Hst. unfold routeFile, relativeName. now rewrite Hlang, Hst. }
  assert (Hreg : registry (route basePath (files1 ++ file :: files2) (start reg))
                 = registry (route basePath (files1 ++ files2) (start reg))).
  { apply registry_without. rewrite Hstep; [reflexivity|].
    now apply route_missing. }
  assert (Hnames : pushed (route basePath (files1 ++ file :: files2) (start reg))
                   = walkedNames basePath files1
                     ++ relativeName basePath file :: walkedNames basePath files2).
  { rewrite route_pushed. cbn [start pushed app].
    change (file :: files2) with ([file] ++ files2).
    rewrite !walkedNames_app. f_equal.
    unfold walkedNames at 1, recognized. cbn [filter]. now rewrite Hlang. }
  unfold run, without, ParseFiles. rewrite Hwalk. unfold parseWalked.
  fold (start reg). cbn [promise parsersAfter]. rewrite Hreg, Hnames.
  split; [exact Hstep|]. split; [reflexivity|].
  destruct (Promise_all _) as [results|e0]; split.
  - now intros out' [= <-].
  - discriminate.
  - discriminate.
  - now intros e [= <-].
Qed.

Lemma C5_missing_backend_keeps_name_only_witness :
  fulfilledNames (ParseFiles scenarioA "proj" javascriptOnly)
  = Some ["./a.js"; "./b.py"]
  /\ parsersAfter (ParseFiles scenarioA "proj" javascriptOnly)
     = parsersAfter (parseWalked "proj" ["proj/a.js"; "proj/c.txt"] javascriptOnly).
Proof.
  pose proof (C5_missing_backend_keeps_name_only scenarioA "proj" javascriptOnly
                ["proj/a.js"] "proj/b.py" ["proj/c.txt"] (ANTLR PYTHON)
                eq_refl eq_refl eq_refl) as (_ & Hafter & Hout & _).
  split; [|exact Hafter].
  unfold fulfilledNames. now rewrite (Hout _ eq_refl).
Defined.








(** C9 (the backends are taken from the specification): starting from a
    registry of backends with empty queues, as [Parser.parsers] is built,
    when a run returns an output, a second run over the same base path and
    the same tree returns the identical output, names and records alike,
    after the same calls: every backend's analysis is a function of its
    queue, and a [Parse()] that fulfils hands the queue back empty. *)
Theorem C9_rerun_gives_identical_output
  (root : Node) (basePath : string) (reg : Map) (out : Output) :
  (forall l p, In (l, p) reg -> buffer p = []) ->
  promise (ParseFiles root basePath reg) = Fulfilled out ->
  let first := ParseFiles root basePath reg in
  let second := ParseFiles root basePath (parsersAfter first) in
  parsersAfter first = reg
  /\ promise second = Fulfilled out
  /\ events second = events first.
Proof.
  intros Hfresh Hout first second.
  assert (Hafter : parsersAfter first = reg).
  { unfold first. revert Hout. unfold ParseFiles.
    destruct (getAllFiles basePath root) as [files|]; [|reflexivity].
    unfold parseWalked. cbn [parsersAfter promise]. fold (start reg).
    destruct (Promise_all _) as [vs|e] eqn:E; [|discriminate].
    intros _. rewrite (fulfilled_emptied _ _ E), route_emptied.
    now apply emptied_fresh. }
  unfold second. rewrite Hafter. now repeat split.
Qed.

Lemma C9_rerun_gives_identical_output_witness :
  fulfilledNames
    (ParseFiles scenarioA "proj"
       (parsersAfter
          (ParseFiles scenarioA "proj" (parsers oneFunctionPerFile keepsQueue))))
  = Some ["./a.js"; "./b.py"].
Proof.
  assert (Hfresh : forall l p,
             In (l, p) (parsers oneFunctionPerFile keepsQueue) -> buffer p = []).
  { intros l p Hin. simpl in Hin.
    repeat (destruct Hin as [[= _ <-] | Hin]; [reflexivity|]).
    destruct Hin. }
  unfold fulfilledNames.
  rewrite (proj1 (proj2
    (C9_rerun_gives_identical_output scenarioA "proj"
       (parsers oneFunctionPerFile keepsQueue) _ Hfresh eq_refl))).
  reflexivity.
Defined.

(** C10, as stated, fails: the second to fourth characters of this name are
    [git], its first character is a line feed, which [.] does not match,
    and the walk yields the entry. *)
Lemma C10_line_feed_name_is_walked :
  Js.slice 1 lineFeedGit = "git"
  /\ gitRegexTest lineFeedGit = false
  /\ getAllFiles "proj" (Dir [(lineFeedGit, File)])
     = Some [("proj/" ++ lineFeedGit)%string].
Proof. repeat split; reflexivity. Qed.

(** C10, amended: the walk leaves out every entry whose name matches
    [/^.git/], that is every name whose second to fourth characters are
    [git] after a first character that is not a line terminator (so
    [agit.js] and [xgit], not only names that begin with [.git]); such an
    entry is neither recursed into nor yielded, whatever it is. *)
Theorem C10_git_pattern_entries_are_left_out
  (c : ascii) (rest : string) (currDir : string)
  (es1 : list (string * Node)) (child : Node) (es2 : list (string * Node))
  (acc : list string) :
  Js.isLineTerminator c = false ->
  gitRegexTest (String c ("git" ++ rest)) = true
  /\ recursivelyGetFiles currDir
       (Dir (es1 ++ (String c ("git" ++ rest), child) :: es2)) acc
     = recursivelyGetFiles currDir (Dir (es1 ++ es2)) acc
  /\ (forall file,
        gitRegexTest file = true <->
        exists c' rest',
          file = String c' ("git" ++ rest')
          /\ Js.isLineTerminator c' = false).
Proof.
  intros Hc.
  assert (Hmatch : gitRegexTest (String c ("git" ++ rest)) = true)
    by (apply gitRegexTest_shape; now exists c, rest).
  repeat split.
  - exact Hmatch.
  - apply walk_skips. intros acc'. now apply visit_git.
  - apply gitRegexTest_shape.
  - apply gitRegexTest_shape.
Qed.

Lemma C10_git_pattern_entries_are_left_out_witness :
  recursivelyGetFiles "proj"
    (Dir ([("a.js", File)]
          ++ ("agit.js", File) :: [("xgit", Dir [("b.py", File)])])) []
  = recursivelyGetFiles "proj"
      (Dir ([("a.js", File)] ++ [("xgit", Dir [("b.py", File)])])) [].
Proof.
  exact (proj1 (proj2
    (C10_git_pattern_entries_are_left_out "a" ".js" "proj" [("a.js", File)]
       File [("xgit", Dir [("b.py", File)])] [] eq_refl))).
Defined.

(** ** Further properties of the tree walk *)

Lemma listing_Dir_cons currDir e entries :
  listing currDir (Dir (e :: entries))
  = (if gitRegexTest (fst e) then []
     else match snd e with
          | File => [Path.join currDir (fst e)]
          | Dir _ | Locked | Gone =>
              listing (Path.join currDir (fst e)) (snd e)
          end)
    ++ listing currDir (Dir entries).
Proof. reflexivity. Qed.

Lemma listing_Dir_app currDir es1 es2 :
  listing currDir (Dir (es1 ++ es2))
  = listing currDir (Dir es1) ++ listing currDir (Dir es2).
Proof. cbn [listing]. apply flat_map_app. Qed.

Lemma walk_listing n :
  forall currDir acc acc',
    recursivelyGetFiles currDir n acc = Some acc' ->
    acc' = acc ++ listing currDir n.
Proof.
  induction n as [| | |entries IH] using Node_nested_ind; try discriminate.
  intros currDir acc acc'. rewrite recursivelyGetFiles_Dir. intros [= <-].
  revert acc. induction IH as [|[file child] entries IHchild _ IHrest];
    intros acc.
  - simpl. now rewrite app_nil_r.
  - cbn [fold_left]. rewrite IHrest, listing_Dir_cons. cbn [fst snd].
    rewrite app_assoc. f_equal. unfold visit.
    destruct (gitRegexTest file); [now rewrite app_nil_r|].
    destruct child as [|sub| |]; cbn [statSync isDirectory].
    + reflexivity.
    + destruct (recursivelyGetFiles (Path.join currDir file) (Dir sub) acc)
        as [acc'|] eqn:E; [|discriminate E].
      exact (IHchild _ _ _ E).
    + simpl. now rewrite app_nil_r.
    + simpl. now rewrite app_nil_r.
Qed.

(** X1: the walk only appends to the array it is given, and what it appends
    is the depth-first listing of the tree: the files of a directory in the
    order of its listing, those of a subdirectory in the place of the
    subdirectory. *)
Theorem X1_walk_appends_depth_first_listing
  (currDir : string) (entries : list (string * Node)) (acc : list string) :
  recursivelyGetFiles currDir (Dir entries) acc
  = Some (acc ++ listing currDir (Dir entries))
  /\ (forall dir, getAllFiles dir (Dir entries)
                  = Some (listing (Js.replace dir "\" "/") (Dir entries)))
  /\ (forall es1 file sub es2,
        entries = es1 ++ (file, Dir sub) :: es2 ->
        gitRegexTest file = false ->
        listing currDir (Dir entries)
        = listing currDir (Dir es1)
          ++ listing (Path.join currDir file) (Dir sub)
          ++ listing currDir (Dir es2)).
Proof.
  assert (H : forall d a, recursivelyGetFiles d (Dir entries) a
                          = Some (a ++ listing d (Dir entries))).
  { intros d a.
    destruct (recursivelyGetFiles d (Dir entries) a) as [acc'|] eqn:E;
      [|discriminate E].
    now rewrite (walk_listing _ _ _ _ E). }
  split; [apply H|]. split.
  - intros dir. unfold getAllFiles. now rewrite H.
  - intros es1 file sub es2 -> Hgit.
    rewrite listing_Dir_app, listing_Dir_cons. cbn [fst snd].
    now rewrite Hgit.
Qed.

(** ** Further properties of [replace] *)

Lemma replace_absent (s pat rep : string) :
  occurs pat s = false -> Js.replace s pat rep = s.
Proof.
  induction s as [|c s IH]; cbn [occurs Js.replace]; intros H;
    apply orb_false_iff in H as [Hp Ho]; rewrite Hp; [reflexivity|].
  now rewrite (IH Ho).
Qed.

Lemma replace_first_unit (a b rep : string) (c : ascii) :
  containsUnit c a = false ->
  Js.replace (a ++ String c b) (String c EmptyString) rep
  = (a ++ rep ++ b)%string.
Proof.
  induction a as [|d a IH]; intros H.
  - cbn [append Js.replace String.prefix].
    destruct (ascii_dec c c) as [_|ne]; [|now elim ne].
    destruct b; reflexivity.
  - cbn [containsUnit] in H. apply orb_false_iff in H as [Hd Ha].
    cbn [append Js.replace String.prefix].
    destruct (ascii_dec c d) as [->|_].
    + now rewrite Ascii.eqb_refl in Hd.
    + now rewrite (IH Ha).
Qed.

Lemma occurs_unit (c : ascii) (s : string) :
  occurs (String c EmptyString) s = containsUnit c s.
Proof.
  induction s as [|d s IH]; [reflexivity|].
  cbn [occurs containsUnit String.prefix]. rewrite IH. f_equal.
  destruct (ascii_dec c d) as [->|ne].
  - rewrite Ascii.eqb_refl. now destruct s.
  - destruct (Ascii.eqb_spec d c) as [->|_]; [now elim ne | reflexivity].
Qed.

(** X2: [getAllFiles] rewrites the first backslash of [dir] and no other:
    a [dir] without a backslash is walked as it is, and in [a\b] with no
    backslash in [a] the walk starts at [a/b], whatever [b] holds. *)
Theorem X2_only_first_backslash_rewritten
  (a b : string) (root : Node) :
  containsUnit "\" a = false ->
  getAllFiles a root = recursivelyGetFiles a root []
  /\ getAllFiles (a ++ "\" ++ b) root
     = recursivelyGetFiles (a ++ "/" ++ b) root [].
Proof.
  intros Ha. unfold getAllFiles. split.
  - rewrite replace_absent; [reflexivity|]. now rewrite occurs_unit.
  - change ("\" ++ b)%string with (String "\" b).
    now rewrite (replace_first_unit a b "/" "\" Ha).
Qed.

Lemma X2_only_first_backslash_rewritten_witness :
  getAllFiles ("C:" ++ "\" ++ "work\proj") (Dir [("a.js", File)])
  = recursivelyGetFiles ("C:" ++ "/" ++ "work\proj") (Dir [("a.js", File)]) [].
Proof.
  exact (proj2 (X2_only_first_backslash_rewritten "C:" "work\proj"
                  (Dir [("a.js", File)]) eq_refl)).
Defined.

(** ** Further properties of the classifier *)

Lemma replace_at_first_occurrence (a pat b rep : string) :
  (forall k, k < String.length a ->
             String.prefix pat (Js.slice k (a ++ pat ++ b)) = false) ->
  Js.replace (a ++ pat ++ b) pat rep = (a ++ rep ++ b)%string.
Proof.
  induction a as [|c a IH]; intros H.
  - cbn [append]. apply replace_prefix.
  - pose proof (H 0 ltac:(simpl; lia)) as H0.
    cbn [append Js.slice] in H0. cbn [append Js.replace].
    rewrite H0. f_equal. apply IH.
    intros k Hk. apply (H (S k)). simpl. lia.
Qed.

(** X3: the relative name is the path itself when the base path does not
    occur in it; otherwise the base path is replaced by [.] where it first
    occurs, also in the middle of the path. *)
Theorem X3_relative_name_rewrites_first_occurrence
  (filepath basePath : string) :
  (occurs basePath filepath = false ->
   filename (getFileNameAndLanguage filepath basePath) = filepath)
  /\ (forall a b,
        filepath = (a ++ basePath ++ b)%string ->
        (forall k, k < String.length a ->
                   String.prefix basePath (Js.slice k filepath) = false) ->
        filename (getFileNameAndLanguage filepath basePath)
        = (a ++ "." ++ b)%string).
Proof.
  assert (Hname : filename (getFileNameAndLanguage filepath basePath)
                  = Js.replace filepath basePath ".").
  { unfold getFileNameAndLanguage.
    now destruct (loweredExtension (Js.replace filepath basePath ".")). }
  rewrite Hname. split.
  - apply replace_absent.
  - intros a b -> H. now apply replace_at_first_occurrence.
Qed.

Lemma X3_relative_name_rewrites_first_occurrence_witness :
  filename (getFileNameAndLanguage "proj/a.js" "./proj") = "proj/a.js"
  /\ filename (getFileNameAndLanguage "x/proj/a.js" "proj") = "x/./a.js".
Proof.
  split.
  - exact (proj1 (X3_relative_name_rewrites_first_occurrence
                    "proj/a.js" "./proj") eq_refl).
  - refine (proj2 (X3_relative_name_rewrites_first_occurrence
                     "x/proj/a.js" "proj") "x/" "/a.js" eq_refl _).
    intros [|[|k]] Hk; [reflexivity | reflexivity | simpl in Hk; lia].
Defined.

Lemma split_nonempty (sep : ascii) (s : string) : Js.split sep s <> [].
Proof.
  destruct s as [|c s]; simpl; [discriminate|].
  destruct (Ascii.eqb c sep); [discriminate|].
  destruct (Js.split sep s); discriminate.
Qed.




Lemma containsUnit_app (c : ascii) (a b : string) :
  containsUnit c (a ++ b) = containsUnit c a || containsUnit c b.
Proof.
  induction a as [|d a IH]; [reflexivity|].
  simpl. now rewrite IH, orb_assoc.
Qed.




(** ** Further properties of the routing loop *)

Lemma Map_get_set_same m k v p :
  Map_get m k = Some p -> Map_get (Map_set m k v) k = Some v.
Proof.
  induction m as [|[k' v'] m IH]; simpl; [discriminate|].
  destruct (Language_eq_dec k k') as [->|ne]; simpl.
  - intros _. now destruct (Language_eq_dec k' k').
  - intros H. destruct (Language_eq_dec k k'); [now elim ne | exact (IH H)].
Qed.

Lemma Map_get_set_other m k k' v :
  k <> k' -> Map_get (Map_set m k v) k' = Map_get m k'.
Proof.
  intros ne. induction m as [|[k0 v0] m IH]; simpl.
  - destruct (Language_eq_dec k' k) as [->|_]; [now elim ne | reflexivity].
  - destruct (Language_eq_dec k k0) as [->|ne0]; simpl.
    + destruct (Language_eq_dec k' k0) as [->|_]; [now elim ne | reflexivity].
    + destruct (Language_eq_dec k' k0); [reflexivity | exact IH].
Qed.

Lemma queueFor_cons basePath file files l :
  queueFor basePath (file :: files) l
  = (if hasLanguage basePath l file
     then [(relativeName basePath file, basePath)] else [])
    ++ queueFor basePath files l.
Proof.
  unfold queueFor. cbn [filter].
  now destruct (hasLanguage basePath l file).
Qed.

Lemma routeFile_queue basePath st file l p :
  Map_get (registry st) l = Some p ->
  Map_get (registry (routeFile basePath st file)) l
  = Some (if hasLanguage basePath l file
          then AddFile p (relativeName basePath file) basePath else p).
Proof.
  intros Hget. unfold hasLanguage, routeFile, relativeName.
  destruct (lang (getFileNameAndLanguage file basePath)) as [l'|];
    [|exact Hget].
  destruct (Language_eq_dec l l') as [<-|ne].
  - rewrite Hget. cbn [registry]. eapply Map_get_set_same, Hget.
  - destruct (Map_get (registry st) l') as [q|]; [|exact Hget].
    cbn [registry]. rewrite Map_get_set_other; [exact Hget|].
    intros ->. now elim ne.
Qed.

Lemma route_queue basePath files l :
  forall st p,
    Map_get (registry st) l = Some p ->
    Map_get (registry (route basePath files st)) l
    = Some (withBuffer p (buffer p ++ queueFor basePath files l)).
Proof.
  induction files as [|file files IH]; intros st p Hget.
  - change (route basePath [] st) with st. rewrite Hget.
    unfold queueFor. cbn [filter map]. rewrite app_nil_r. now destruct p.
  - change (route basePath (file :: files) st)
      with (route basePath files (routeFile basePath st file)).
    rewrite (IH _ _ (routeFile_queue basePath st file l p Hget)).
    rewrite queueFor_cons. f_equal.
    destruct (hasLanguage basePath l file).
    + unfold AddFile, withBuffer. cbn [buffer minMethodLines minFunctionChars
                                        locate stale].
      now rewrite <- app_assoc.
    + reflexivity.
Qed.

(** X5: routing hands a walked file to the backend of its own language and
    to no other: after the loop the queue of the backend of [l] is what it
    held before, followed by the relative names of the walked files of
    language [l], in walk order, each paired with the base path. *)
Theorem X5_each_backend_queues_its_language
  (basePath : string) (files : list string) (reg : Map)
  (l : Language) (p : IParser) :
  Map_get reg l = Some p ->
  Map_get (registry (route basePath files (start reg))) l
  = Some (withBuffer p (buffer p ++ queueFor basePath files l)).
Proof. intros H. now apply route_queue. Qed.

Lemma X5_each_backend_queues_its_language_witness :
  option_map buffer
    (Map_get
       (registry
          (route "proj" ["proj/a.js"; "proj/b.py"; "proj/c.JS"; "proj/d.txt"]
             (start (parsers oneFunctionPerFile keepsQueue))))
       (ANTLR JS))
  = Some [("./a.js", "proj"); ("./c.JS", "proj")].
Proof.
  rewrite (X5_each_backend_queues_its_language "proj"
             ["proj/a.js"; "proj/b.py"; "proj/c.JS"; "proj/d.txt"]
             (parsers oneFunctionPerFile keepsQueue) (ANTLR JS)
             (Javascript oneFunctionPerFile keepsQueue MIN_METHOD_LINES
                MIN_FUNCTION_CHARS)
             eq_refl).
  reflexivity.
Defined.

Lemma addFileCalls_app evs1 evs2 :
  addFileCalls (evs1 ++ evs2) = addFileCalls evs1 ++ addFileCalls evs2.
Proof. apply flat_map_app. Qed.

Lemma route_complete basePath files :
  forall st,
    (forall l, Map_get (registry st) l <> None) ->
    addFileCalls (calls (route basePath files st))
    = addFileCalls (calls st)
      ++ map (fun n => (n, basePath)) (walkedNames basePath files)
    /\ filter isMissingBackendDiagnostic (calls (route basePath files st))
       = filter isMissingBackendDiagnostic (calls st).
Proof.
  induction files as [|file files IH]; intros st Hall.
  - change (route basePath [] st) with st.
    cbn [walkedNames filter map]. now rewrite app_nil_r.
  - change (route basePath (file :: files) st)
      with (route basePath files (routeFile basePath st file)).
    assert (Hall' : forall l,
               Map_get (registry (routeFile basePath st file)) l <> None).
    { intros l. rewrite Map_get_None_keys, routeFile_keys,
        <- Map_get_None_keys. apply Hall. }
    destruct (IH _ Hall') as [IHadd IHdiag]. rewrite IHadd, IHdiag.
    change (file :: files) with ([file] ++ files).
    rewrite walkedNames_app, map_app, app_assoc.
    unfold routeFile, walkedNames, recognized, relativeName. cbn [filter].
    destruct (lang (getFileNameAndLanguage file basePath)) as [l|].
    + destruct (Map_get (registry st) l) as [p|] eqn:E; [|now elim (Hall l)].
      cbn [calls map]. rewrite addFileCalls_app, filter_app. cbn.
      now rewrite !app_nil_r.
    + cbn [map]. now rewrite app_nil_r.
Qed.

(** X6: with a registry that has a backend for every language, as
    [Parser.parsers] has, [filenames] is the list of the files handed to
    the backends: the [AddFile] calls of a run carry exactly the returned
    names, in order, each with the base path, and the missing-backend
    diagnostic is never emitted. *)
Theorem X6_filenames_are_the_files_handed_over
  (root : Node) (basePath : string) (reg : Map) (out : Output) :
  (forall l, Map_get reg l <> None) ->
  promise (ParseFiles root basePath reg) = Fulfilled out ->
  addFileCalls (events (ParseFiles root basePath reg))
  = map (fun n => (n, basePath)) (filenames out)
  /\ filter isMissingBackendDiagnostic (events (ParseFiles root basePath reg))
     = [].
Proof.
  intros Hall. unfold ParseFiles.
  destruct (getAllFiles basePath root) as [files|]; [|discriminate].
  unfold parseWalked. cbn [promise events]. fold (start reg).
  destruct (Promise_all _); [|discriminate]. intros [= <-]. cbn [filenames].
  destruct (route_complete basePath files (start reg) Hall) as [Hadd Hdiag].
  rewrite addFileCalls_app, filter_app, Hadd, Hdiag, route_pushed.
  cbn [start calls pushed addFileCalls flat_map filter app].
  assert (Hparse : forall ks,
             addFileCalls (map CallParse ks) = []
             /\ filter isMissingBackendDiagnostic (map CallParse ks) = []).
  { induction ks as [|k ks [IH1 IH2]]; [now split|]. now split. }
  destruct (Hparse (Map_keys (registry (route basePath files (start reg)))))
    as [-> ->].
  now rewrite app_nil_r.
Qed.

Lemma X6_filenames_are_the_files_handed_over_witness :
  addFileCalls
    (events (ParseFiles scenarioA "proj" (parsers oneFunctionPerFile keepsQueue)))
  = [("./a.js", "proj"); ("./b.py", "proj")].
Proof.
  refine (proj1
    (X6_filenames_are_the_files_handed_over scenarioA "proj"
       (parsers oneFunctionPerFile keepsQueue)
       {| filenames := ["./a.js"; "./b.py"];
          result := [ {| fileName := "./a.js"; languageTag := ANTLR JS;
                         name := "f"; startLine := 1; endLine := 5;
                         fingerprint := "h" |};
                      {| fileName := "./b.py"; languageTag := ANTLR PYTHON;
                         name := "f"; startLine := 1; endLine := 5;
                         fingerprint := "h" |} ] |}
       _ eq_refl)).
  intros [[| |]|[|]]; discriminate.
Defined.

(** ** Further properties of the registry and of the whole run *)

Lemma Map_get_map (g : Language -> IParser -> IParser) m k :
  Map_get (map (fun e => (fst e, g (fst e) (snd e))) m) k
  = option_map (g k) (Map_get m k).
Proof.
  induction m as [|[k' v] m IH]; [reflexivity|].
  cbn [map Map_get fst snd].
  destruct (Language_eq_dec k k') as [->|_]; [reflexivity | exact IH].
Qed.

Lemma Map_ext (m1 : Map) :
  forall m2,
    Map_keys m1 = Map_keys m2 ->
    NoDup (Map_keys m1) ->
    (forall k, In k (Map_keys m1) -> Map_get m1 k = Map_get m2 k) ->
    m1 = m2.
Proof.
  induction m1 as [|[k v] m1 IH]; intros [|[k2 v2] m2] Hkeys Hnd Hget;
    try discriminate Hkeys; [reflexivity|].
  cbn [Map_keys map fst] in Hkeys. injection Hkeys as <- Hkeys.
  inversion Hnd as [|? ? Hnotin Hnd']; subst.
  pose proof (Hget k (or_introl eq_refl)) as Hk. cbn [Map_get] in Hk.
  destruct (Language_eq_dec k k) as [_|ne]; [|now elim ne].
  injection Hk as <-. f_equal. apply IH; [exact Hkeys | exact Hnd' |].
  intros k' Hin. specialize (Hget k' (or_intror Hin)). cbn [Map_get] in Hget.
  destruct (Language_eq_dec k' k) as [->|_]; [now elim Hnotin | exact Hget].
Qed.

Lemma route_registry_list basePath files reg :
  NoDup (Map_keys reg) ->
  registry (route basePath files (start reg))
  = map (fun e => (fst e,
                   withBuffer (snd e)
                     (buffer (snd e) ++ queueFor basePath files (fst e))))
        reg.
Proof.
  intros Hnd.
  assert (Hkeys : Map_keys (registry (route basePath files (start reg)))
                  = Map_keys reg) by apply route_keys.
  apply Map_ext.
  - rewrite Hkeys. unfold Map_keys. rewrite map_map. reflexivity.
  - now rewrite Hkeys.
  - intros k _.
    rewrite (Map_get_map
               (fun l p => withBuffer p (buffer p ++ queueFor basePath files l))).
    destruct (Map_get reg k) as [p|] eqn:E.
    + now apply route_queue.
    + now apply route_missing.
Qed.

Lemma emit_without_minimum (p : IParser) (fs : list LocatedFunction) :
  minMethodLines p = 0 -> minFunctionChars p = 0 ->
  flat_map (emit p) fs = map record fs.
Proof.
  intros Hl Hc. induction fs as [|f fs IH]; [reflexivity|].
  cbn [flat_map map]. rewrite IH. unfold emit, belowMinimum.
  now rewrite Hl, Hc.
Qed.

Lemma parsers_entries analyse leftover :
  parsers analyse leftover
  = [ (ANTLR JS, Javascript analyse leftover MIN_METHOD_LINES MIN_FUNCTION_CHARS);
      (ANTLR PYTHON, Python analyse leftover MIN_METHOD_LINES MIN_FUNCTION_CHARS);
      (XML CPP, XMLParser analyse leftover CPP MIN_FUNCTION_CHARS MIN_METHOD_LINES);
      (XML CSHARP,
       XMLParser analyse leftover CSHARP MIN_FUNCTION_CHARS MIN_METHOD_LINES);
      (XML JAVA,
       XMLParser analyse leftover JAVA MIN_FUNCTION_CHARS MIN_METHOD_LINES) ].
Proof. reflexivity. Qed.

(** X7: a run on the registry as [Parser.parsers] builds it, when the
    analysis of every language fulfils on the walked files of that
    language: the result pairs the relative names of the recognized files
    with the records of all located functions (the thresholds being 0, none
    is filtered out), grouped by language in the order Javascript, Python,
    C++, C#, Java, and every queue is empty again afterwards. *)
Theorem X7_run_on_the_built_registry
  (analyse : Language -> list (string * string) -> Settled (list LocatedFunction))
  (leftover : Language -> list (string * string) -> list (string * string))
  (root : Node) (basePath : string) (files : list string)
  (found : Language -> list LocatedFunction) :
  getAllFiles basePath root = Some files ->
  (forall l, analyse l (queueFor basePath files l) = Fulfilled (found l)) ->
  promise (ParseFiles root basePath (parsers analyse leftover))
  = Fulfilled
      {| filenames := walkedNames basePath files;
         result := map record
                     (found (ANTLR JS) ++ found (ANTLR PYTHON)
                      ++ found (XML CPP) ++ found (XML CSHARP)
                      ++ found (XML JAVA)) |}
  /\ parsersAfter (ParseFiles root basePath (parsers analyse leftover))
     = parsers analyse leftover.
Proof.
  intros Hwalk Hfound.
  assert (Hnd : NoDup (Map_keys (parsers analyse leftover))).
  { rewrite parsers_entries. repeat constructor; simpl; intuition discriminate. }
  assert (Hone : forall l p,
             locate p = analyse l -> minMethodLines p = 0 ->
             minFunctionChars p = 0 -> buffer p = [] ->
             Parse (withBuffer p (buffer p ++ queueFor basePath files l))
             = (Fulfilled (map record (found l)), p)).
  { intros l p Hloc Hl Hc Hb. unfold Parse. cbn [withBuffer locate buffer].
    rewrite Hb, app_nil_l, Hloc, Hfound.
    rewrite emit_without_minimum by assumption.
    f_equal. destruct p; unfold withBuffer; simpl in *. now subst. }
  unfold ParseFiles. rewrite Hwalk. unfold parseWalked.
  fold (start (parsers analyse leftover)).
  rewrite (route_registry_list _ _ _ Hnd), route_pushed, parsers_entries.
  cbn [promise parsersAfter map Map_values fst snd start pushed app].
  rewrite !Hone by reflexivity.
  cbn [fst snd Promise_all concat]. rewrite app_nil_r, !map_app.
  split; reflexivity.
Qed.

Lemma X7_run_on_the_built_registry_witness :
  fulfilledNames (ParseFiles scenarioA "proj" (parsers oneFunctionPerFile keepsQueue))
  = Some (walkedNames "proj" ["proj/a.js"; "proj/b.py"; "proj/c.txt"]).
Proof.
  unfold fulfilledNames.
  rewrite (proj1
    (X7_run_on_the_built_registry oneFunctionPerFile keepsQueue scenarioA "proj"
       ["proj/a.js"; "proj/b.py"; "proj/c.txt"]
       (fun l =>
          map (fun fb =>
                 {| record := {| fileName := fst fb; languageTag := l;
                                 name := "f"; startLine := 1; endLine := 5;
                                 fingerprint := "h" |};
                    lineCount := 5; charCount := 40 |})
              (queueFor "proj" ["proj/a.js"; "proj/b.py"; "proj/c.txt"] l))
       eq_refl (fun l => eq_refl))).
  reflexivity.
Defined.

Lemma Promise_all_fulfilled_iff {A : Type} (ps : list (Settled A)) :
  (exists vs, Promise_all ps = Fulfilled vs)
  <-> Forall (fun s => exists v, s = Fulfilled v) ps.
Proof.
  induction ps as [|[v|e] ps IH]; simpl.
  - split; [constructor | now exists []].
  - split.
    + intros [vs H]. constructor; [now exists v|]. apply IH.
      destruct (Promise_all ps) as [ws|]; [now exists ws | discriminate H].
    + intros H. inversion H as [|? ? _ Hps]; subst.
      apply IH in Hps as [ws ->]. now eexists.
  - split; [intros [vs H]; discriminate H|].
    intros H. inversion H as [|? ? [v Hv] _]. discriminate Hv.
Qed.

(** X8: a run returns exactly when the root can be listed and the
    [Parse()] of every backend of the registry fulfils on the queue that
    routing has left it with; when the root cannot be listed, the run
    rejects without a call to any backend and leaves the registry as it
    was. *)
Theorem X8_run_returns_iff_walk_and_backends_succeed
  (root : Node) (basePath : string) (reg : Map) :
  ((exists out, promise (ParseFiles root basePath reg) = Fulfilled out)
   <-> exists files,
         getAllFiles basePath root = Some files
         /\ forall l p,
              In (l, p) (registry (route basePath files (start reg))) ->
              exists v, fst (Parse p) = Fulfilled v)
  /\ ((forall entries, root <> Dir entries) ->
      ParseFiles root basePath reg
      = {| promise := Rejected WalkFailed; parsersAfter := reg; events := [] |}).
Proof.
  split.
  - unfold ParseFiles.
    destruct (getAllFiles basePath root) as [files|].
    + unfold parseWalked. cbn [promise]. fold (start reg).
      set (routed := registry (route basePath files (start reg))).
      assert (Hall : Forall (fun s => exists v, s = Fulfilled v)
                       (map (fun p => fst (Parse p)) (Map_values routed))
                     <-> forall l p, In (l, p) routed ->
                                     exists v, fst (Parse p) = Fulfilled v).
      { rewrite Forall_forall. unfold Map_values. split.
        - intros H l p Hin. apply H.
          apply (in_map (fun q => fst (Parse q))).
          exact (in_map snd _ (l, p) Hin).
        - intros H s Hin. apply in_map_iff in Hin as (p & <- & Hin).
          apply in_map_iff in Hin as ([l q] & <- & Hin). exact (H l q Hin). }
      split.
      * intros [out H].
        destruct (Promise_all _) as [vs|] eqn:E; [|discriminate H].
        exists files. split; [reflexivity|].
        apply Hall, Promise_all_fulfilled_iff. now exists vs.
      * intros (files' & [= <-] & Hb).
        apply Hall, Promise_all_fulfilled_iff in Hb as [vs E].
        rewrite E. now eexists.
    + cbn [promise]. split; [intros [out H]; discriminate H|].
      intros (files & H & _). discriminate H.
  - intros Hroot. unfold ParseFiles, getAllFiles.
    destruct root as [|entries| |]; try reflexivity.
    now elim (Hroot entries).
Qed.

(** ** [split], [join] and [path.join] on ordinary paths *)

Lemma string_app_assoc (a b c : string) :
  ((a ++ b) ++ c = a ++ (b ++ c))%string.
Proof. induction a as [|x a IH]; simpl; [reflexivity | now rewrite IH]. Qed.

Lemma string_app_inv_head (a b c : string) :
  (a ++ b = a ++ c)%string -> b = c.
Proof.
  induction a as [|x a IH]; simpl; [trivial|]. intros [= H]. exact (IH H).
Qed.

Lemma split_no_sep (sep : ascii) (s : string) :
  containsUnit sep s = false -> Js.split sep s = [s].
Proof.
  induction s as [|c s IH]; simpl; [reflexivity|].
  intros H. apply orb_false_iff in H as [Hc Hs].
  now rewrite Hc, (IH Hs).
Qed.

Lemma split_app_sep (sep : ascii) (a b : string) :
  Js.split sep (a ++ String sep b) = Js.split sep a ++ Js.split sep b.
Proof.
  induction a as [|c a IH].
  - cbn [append Js.split app]. now rewrite Ascii.eqb_refl.
  - cbn [append Js.split]. rewrite IH.
    pose proof (split_nonempty sep a) as Hne.
    destruct (Js.split sep a) as [|s t]; [now elim Hne|].
    now destruct (Ascii.eqb c sep).
Qed.

Lemma join_split (s : string) : Js.join "/" (Js.split "/" s) = s.
Proof.
  induction s as [|c s IH]; [reflexivity|].
  cbn [Js.split]. pose proof (split_nonempty "/" s) as Hne.
  destruct (Js.split "/" s) as [|seg segs]; [now elim Hne|].
  destruct (Ascii.eqb_spec c "/") as [->|_].
  - change (Js.join "/" (EmptyString :: seg :: segs))
      with (String "/" (Js.join "/" (seg :: segs))).
    now rewrite IH.
  - destruct segs as [|seg' segs].
    + cbn [Js.join] in *. now rewrite IH.
    + change (Js.join "/" (String c seg :: seg' :: segs))
        with (String c (Js.join "/" (seg :: seg' :: segs))).
      now rewrite IH.
Qed.

Lemma split_join (segs : list string) :
  segs <> [] ->
  forallb (fun seg => negb (containsUnit "/" seg)) segs = true ->
  Js.split "/" (Js.join "/" segs) = segs.
Proof.
  induction segs as [|x segs IH]; [now intros H|]. intros _ Hall.
  cbn [forallb] in Hall. apply andb_true_iff in Hall as [Hx Hrest].
  apply negb_true_iff in Hx.
  destruct segs as [|y segs].
  - cbn [Js.join]. now apply split_no_sep.
  - change (Js.join "/" (x :: y :: segs))
      with (x ++ String "/" (Js.join "/" (y :: segs)))%string.
    rewrite split_app_sep, (split_no_sep _ _ Hx), IH;
      [reflexivity | discriminate | exact Hrest].
Qed.

Lemma pop_app_last (l : list string) (x : string) :
  Js.pop (l ++ [x]) = Some x.
Proof.
  induction l as [|y l IH]; [reflexivity|].
  cbn [app Js.pop]. destruct (l ++ [x]) eqn:E; [|exact IH].
  now destruct l.
Qed.

Lemma plainSegment_spec (seg : string) :
  plainSegment seg = true ->
  (seg =? "")%string = false /\ (seg =? ".")%string = false
  /\ (seg =? "..")%string = false /\ containsUnit "/" seg = false.
Proof.
  unfold plainSegment. intros H.
  repeat (apply andb_true_iff in H as [H ?]).
  repeat split; now apply negb_true_iff.
Qed.

Lemma normalizeSegments_plain (allow : bool) (segs : list string) :
  forall res,
    forallb plainSegment segs = true ->
    Path.normalizeSegments allow segs res = rev res ++ segs.
Proof.
  induction segs as [|seg segs IH]; intros res Hall.
  - simpl. now rewrite app_nil_r.
  - cbn [forallb] in Hall. apply andb_true_iff in Hall as [Hseg Hrest].
    destruct (plainSegment_spec _ Hseg) as (H0 & H1 & H2 & _).
    cbn [Path.normalizeSegments]. rewrite H0, H1, H2. cbn [orb].
    rewrite (IH _ Hrest). cbn [rev]. now rewrite <- app_assoc.
Qed.

Lemma split_head (p : string) :
  match Js.split "/" p with
  | EmptyString :: _ :: _ => String.prefix "/" p = true
  | String _ _ :: _ => String.prefix "/" p = false
  | _ => True
  end.
Proof.
  destruct p as [|c p]; [exact I|]. cbn [Js.split].
  pose proof (split_nonempty "/" p) as Hne.
  destruct (Js.split "/" p) as [|seg segs]; [now elim Hne|].
  destruct (Ascii.eqb_spec c "/") as [->|ne].
  - cbn [String.prefix]. destruct (ascii_dec "/" "/") as [_|ne];
      [now destruct p | now elim ne].
  - cbn [String.prefix]. destruct (ascii_dec "/" c) as [<-|_];
      [now elim ne | reflexivity].
Qed.

Lemma prefix_slash_app (p rest : string) :
  p <> EmptyString ->
  String.prefix "/" (p ++ rest) = String.prefix "/" p.
Proof.
  destruct p as [|c p]; [now intros H|]. intros _.
  cbn [append String.prefix]. destruct (ascii_dec "/" c); [|reflexivity].
  now destruct p, rest.
Qed.

Lemma join_cons_nonempty (x : string) (l : list string) :
  l <> [] -> Js.join "/" (x :: l) = (x ++ "/" ++ Js.join "/" l)%string.
Proof. destruct l; [now intros H | reflexivity]. Qed.

(** On a clean directory path and a plain name, [path.join] is plain
    concatenation with a slash, and the result is clean again. *)
Lemma join_clean (p f : string) :
  cleanPath p = true -> plainSegment f = true ->
  Path.join p f = (p ++ "/" ++ f)%string
  /\ cleanPath (p ++ "/" ++ f) = true.
Proof.
  intros Hp Hf.
  destruct (plainSegment_spec _ Hf) as (Hf0 & _ & _ & Hfs).
  assert (Hpne : p <> EmptyString) by (intros ->; discriminate Hp).
  assert (Hp0 : (p =? "")%string = false)
    by (destruct p; [now elim Hpne | reflexivity]).
  set (s := (p ++ "/" ++ f)%string).
  assert (Hs0 : (s =? "")%string = false)
    by (unfold s; destruct p; [now elim Hpne | reflexivity]).
  assert (Hsplit : Js.split "/" s = Js.split "/" p ++ [f]).
  { unfold s. change ("/" ++ f)%string with (String "/" f).
    now rewrite split_app_sep, (split_no_sep _ _ Hfs). }
  assert (Hend : Path.endsWithSlash s = false).
  { unfold Path.endsWithSlash. rewrite Hsplit, pop_app_last.
    destruct f; [discriminate Hf0 | reflexivity]. }
  assert (Habs : String.prefix "/" s = String.prefix "/" p)
    by (unfold s; now apply prefix_slash_app).
  pose proof (join_split s) as Hround. rewrite Hsplit in Hround.
  pose proof (split_head p) as Hhead.
  unfold Path.join. rewrite Hp0, Hf0. fold s.
  unfold Path.normalize. rewrite Hs0, Hend, Habs, Hsplit.
  unfold cleanPath in Hp |- *. fold s. rewrite Hsplit.
  destruct (Js.split "/" p) as [|x l] eqn:Esp;
    [now elim (split_nonempty "/" p)|].
  destruct x as [|c x].
  - destruct l as [|seg rest]; [discriminate Hp|].
    rewrite Hhead.
    change (Path.normalizeSegments (negb true)
              ((EmptyString :: seg :: rest) ++ [f]) [])
      with (Path.normalizeSegments false ((seg :: rest) ++ [f]) []).
    change ((EmptyString :: seg :: rest) ++ [f])
      with (EmptyString :: seg :: rest ++ [f]).
    assert (Hall : forallb plainSegment ((seg :: rest) ++ [f]) = true).
    { rewrite forallb_app, Hp. cbn [forallb]. now rewrite Hf. }
    rewrite (normalizeSegments_plain false _ [] Hall). cbn [rev app].
    cbn [app] in Hround, Hall.
    rewrite join_cons_nonempty in Hround by discriminate.
    cbn [append] in Hround.
    destruct (Js.join "/" (seg :: rest ++ [f])) as [|d q] eqn:Eq.
    + exfalso. destruct rest; cbn [app Js.join] in Eq.
      * destruct seg; [discriminate Hall | discriminate Eq].
      * destruct seg; [discriminate Hall | discriminate Eq].
    + cbn [String.eqb]. split; [exact Hround | exact Hall].
  - rewrite Hhead. cbn [negb].
    assert (Hall : forallb plainSegment ((String c x :: l) ++ [f]) = true).
    { rewrite forallb_app, Hp. cbn [forallb]. now rewrite Hf. }
    rewrite (normalizeSegments_plain true _ [] Hall). cbn [rev app].
    cbn [app] in Hround, Hall. rewrite Hround, Hs0.
    split; [reflexivity | exact Hall].
Qed.

(** ** The walk of an ordinary tree from a clean base path *)

Lemma relativePaths_Dir_cons e entries :
  relativePaths (Dir (e :: entries))
  = (if gitRegexTest (fst e) then []
     else match snd e with
          | File => [[fst e]]
          | Dir _ | Locked | Gone => map (cons (fst e)) (relativePaths (snd e))
          end)
    ++ relativePaths (Dir entries).
Proof. reflexivity. Qed.

Lemma relativePaths_head n segs :
  In segs (relativePaths n) ->
  exists entries file rest,
    n = Dir entries /\ In file (map fst entries) /\ segs = file :: rest.
Proof.
  destruct n as [|entries| |]; try contradiction.
  cbn [relativePaths]. intros H. apply in_flat_map in H as ([file child] & Hin & H).
  exists entries, file. cbn [fst snd] in H.
  assert (Hfile : In file (map fst entries))
    by exact (in_map fst _ (file, child) Hin).
  destruct (gitRegexTest file); [contradiction|].
  destruct child as [|sub| |].
  - destruct H as [<- | []]. now exists [].
  - apply in_map_iff in H as (rest & <- & _). now exists rest.
  - contradiction.
  - contradiction.
Qed.

Lemma relativePaths_nonempty n segs :
  In segs (relativePaths n) -> segs <> [].
Proof.
  intros H. apply relativePaths_head in H as (? & ? & ? & _ & _ & ->).
  discriminate.
Qed.

Lemma listing_clean n :
  forall dir,
    cleanPath dir = true -> simpleTree n = true ->
    listing dir n
    = map (fun segs => (dir ++ "/" ++ Js.join "/" segs)%string)
          (relativePaths n).
Proof.
  induction n as [| | |entries IH] using Node_nested_ind; try reflexivity.
  intros dir Hdir Hsimple. cbn [simpleTree] in Hsimple.
  apply andb_true_iff in Hsimple as [_ Hall].
  induction IH as [|[file child] entries IHchild _ IHrest]; [reflexivity|].
  cbn [forallb fst snd] in Hall.
  apply andb_true_iff in Hall as [Hentry Hall].
  apply andb_true_iff in Hentry as [Hplain Hchild].
  rewrite listing_Dir_cons, relativePaths_Dir_cons, map_app, (IHrest Hall).
  f_equal. cbn [fst snd] in *.
  destruct (gitRegexTest file); [reflexivity|].
  destruct (join_clean dir file Hdir Hplain) as [Hjoin Hclean].
  destruct child as [|sub| |]; try reflexivity.
  - cbn [map Js.join]. now rewrite Hjoin.
  - rewrite Hjoin, (IHchild _ Hclean Hchild), map_map.
    apply map_ext_in. intros segs Hin.
    rewrite join_cons_nonempty by (eapply relativePaths_nonempty, Hin).
    now rewrite !string_app_assoc.
Qed.

Lemma classifier_by_name (filepath basePath : string) :
  getFileNameAndLanguage filepath basePath
  = {| filename := Js.replace filepath basePath ".";
       lang := languageOfName (Js.replace filepath basePath ".") |}.
Proof.
  unfold getFileNameAndLanguage, languageOfName.
  now destruct (loweredExtension (Js.replace filepath basePath ".")).
Qed.

Lemma filter_map_commute {A B : Type} (f : A -> B) (P : B -> bool) l :
  filter P (map f l) = map f (filter (fun x => P (f x)) l).
Proof.
  induction l as [|x l IH]; [reflexivity|].
  cbn [map filter]. rewrite IH. now destruct (P (f x)).
Qed.

Lemma walkedNames_under basePath (g : list string -> string)
  (rels : list (list string)) :
  walkedNames basePath (map (fun segs => (basePath ++ g segs)%string) rels)
  = filter recognizedName (map (fun segs => ("." ++ g segs)%string) rels).
Proof.
  unfold walkedNames. rewrite !filter_map_commute, map_map.
  assert (Hcls : forall segs,
             getFileNameAndLanguage (basePath ++ g segs) basePath
             = {| filename := ("." ++ g segs)%string;
                  lang := languageOfName ("." ++ g segs) |}).
  { intros segs. now rewrite classifier_by_name, replace_prefix. }
  rewrite (filter_ext (fun x => recognized basePath (basePath ++ g x)%string)
                      (fun x => recognizedName ("." ++ g x))).
  - apply map_ext. intros segs. unfold relativeName. now rewrite Hcls.
  - intros segs. unfold recognized, recognizedName. now rewrite Hcls.
Qed.

Lemma walkedNames_below basePath (rels : list (list string)) :
  walkedNames basePath
    (map (fun segs => (basePath ++ "/" ++ Js.join "/" segs)%string) rels)
  = filter recognizedName (map dotSlash rels).
Proof.
  exact (walkedNames_under basePath
           (fun segs => ("/" ++ Js.join "/" segs)%string) rels).
Qed.

Lemma getAllFiles_clean (root : Node) (basePath : string) files :
  cleanPath basePath = true ->
  containsUnit "\" basePath = false ->
  simpleTree root = true ->
  getAllFiles basePath root = Some files ->
  files = map (fun segs => (basePath ++ "/" ++ Js.join "/" segs)%string)
              (relativePaths root).
Proof.
  intros Hclean Hback Hsimple Hwalk. unfold getAllFiles in Hwalk.
  rewrite replace_absent in Hwalk by now rewrite occurs_unit.
  rewrite (walk_listing _ _ _ _ Hwalk). cbn [app].
  now apply listing_clean.
Qed.

Lemma filenames_walked (root : Node) (basePath : string) reg files out :
  getAllFiles basePath root = Some files ->
  promise (ParseFiles root basePath reg) = Fulfilled out ->
  filenames out = walkedNames basePath files.
Proof.
  intros Hwalk. unfold ParseFiles. rewrite Hwalk. unfold parseWalked.
  cbn [promise]. destruct (Promise_all _); [|discriminate].
  intros [= <-]. cbn [filenames]. now rewrite route_pushed.
Qed.

(** X9: for a clean base path without backslash and a tree with plain,
    distinct names, the walk yields the base path, a slash and the names
    from the root down joined by slashes; [filenames] does not depend on
    the base path: it holds [./] followed by the joined names, for the
    files whose name is recognized, in walk order. *)
Theorem X9_clean_base_gives_dot_slash_names
  (root : Node) (basePath : string) (reg : Map) (files : list string) :
  cleanPath basePath = true ->
  containsUnit "\" basePath = false ->
  simpleTree root = true ->
  getAllFiles basePath root = Some files ->
  files = map (fun segs => (basePath ++ "/" ++ Js.join "/" segs)%string)
              (relativePaths root)
  /\ (forall out,
        promise (ParseFiles root basePath reg) = Fulfilled out ->
        filenames out = filter recognizedName (map dotSlash (relativePaths root))).
Proof.
  intros Hclean Hback Hsimple Hwalk.
  pose proof (getAllFiles_clean _ _ _ Hclean Hback Hsimple Hwalk) as Hfiles.
  split; [exact Hfiles|]. intros out Hout.
  rewrite (filenames_walked _ _ _ _ _ Hwalk Hout), Hfiles.
  apply walkedNames_below.
Qed.

Lemma X9_clean_base_gives_dot_slash_names_witness :
  getAllFiles "/home/me/proj" docsAndSources
  = Some ["/home/me/proj/README.md"; "/home/me/proj/src/main.js";
          "/home/me/proj/src/notes.txt"].
Proof.
  destruct (getAllFiles "/home/me/proj" docsAndSources) as [files|] eqn:E;
    [|discriminate E].
  now rewrite (proj1
    (X9_clean_base_gives_dot_slash_names docsAndSources "/home/me/proj" []
       files eq_refl eq_refl eq_refl E)).
Defined.

Lemma distinct_NoDup (l : list string) : distinct l = true -> NoDup l.
Proof.
  induction l as [|x l IH]; intros H; constructor;
    cbn [distinct] in H; apply andb_true_iff in H as [Hx Hl].
  - intros Hin. apply negb_true_iff in Hx.
    assert (Hex : existsb (String.eqb x) l = true)
      by (apply existsb_exists; exists x; split;
          [exact Hin | apply String.eqb_refl]).
    rewrite Hex in Hx. discriminate Hx.
  - exact (IH Hl).
Qed.

Lemma NoDup_map_on {A B : Type} (f : A -> B) (l : list A) :
  (forall x y, In x l -> In y l -> f x = f y -> x = y) ->
  NoDup l -> NoDup (map f l).
Proof.
  intros Hinj Hnd. induction Hnd as [|x l Hnotin _ IH]; cbn [map]; constructor.
  - intros Hin. apply in_map_iff in Hin as (y & Hy & Hin).
    assert (y = x) by (apply Hinj; [now right | now left | exact Hy]).
    subst y. contradiction.
  - apply IH. intros a b Ha Hb. apply Hinj; now right.
Qed.

Lemma relativePaths_NoDup n :
  simpleTree n = true -> NoDup (relativePaths n).
Proof.
  induction n as [| | |entries IH] using Node_nested_ind;
    try (intros _; constructor).
  cbn [simpleTree]. intros H. apply andb_true_iff in H as [Hdist Hall].
  apply distinct_NoDup in Hdist.
  induction IH as [|[file child] entries IHchild _ IHrest]; [constructor|].
  cbn [map fst] in Hdist. inversion Hdist as [|? ? Hnotin Hdist']; subst.
  cbn [forallb fst snd] in Hall.
  apply andb_true_iff in Hall as [Hentry Hall].
  apply andb_true_iff in Hentry as [_ Hchild].
  rewrite relativePaths_Dir_cons. cbn [fst snd] in *. apply NoDup_app.
  - destruct (gitRegexTest file); [constructor|].
    destruct child as [|sub| |]; try constructor.
    + intros [].
    + constructor.
    + apply NoDup_map_on; [|exact (IHchild Hchild)].
      now intros x y _ _ [= ->].
  - exact (IHrest Hdist' Hall).
  - intros segs Hin Hin'.
    apply relativePaths_head in Hin' as (es & name & rest & [= <-] & Hname & ->).
    destruct (gitRegexTest file); [contradiction|].
    destruct child as [|sub| |]; try contradiction.
    + destruct Hin as [[= <-] | []]. contradiction.
    + apply in_map_iff in Hin as (t & [= <- _] & _). contradiction.
Qed.

Lemma relativePaths_plain n :
  simpleTree n = true ->
  forall segs, In segs (relativePaths n) -> forallb plainSegment segs = true.
Proof.
  induction n as [| | |entries IH] using Node_nested_ind;
    try (intros _ segs []).
  cbn [simpleTree]. intros H. apply andb_true_iff in H as [_ Hall].
  induction IH as [|[file child] entries IHchild _ IHrest];
    [intros segs []|].
  cbn [forallb fst snd] in Hall.
  apply andb_true_iff in Hall as [Hentry Hall].
  apply andb_true_iff in Hentry as [Hplain Hchild].
  intros segs. rewrite relativePaths_Dir_cons, in_app_iff. cbn [fst snd] in *.
  intros [Hin | Hin]; [|exact (IHrest Hall segs Hin)].
  destruct (gitRegexTest file); [contradiction|].
  destruct child as [|sub| |]; try contradiction.
  - destruct Hin as [<- | []]. cbn [forallb]. now rewrite Hplain.
  - apply in_map_iff in Hin as (t & <- & Hin). cbn [forallb].
    now rewrite Hplain, (IHchild Hchild t Hin).
Qed.

Lemma join_injective (x y : list string) :
  x <> [] -> y <> [] ->
  forallb plainSegment x = true -> forallb plainSegment y = true ->
  Js.join "/" x = Js.join "/" y -> x = y.
Proof.
  intros Hx Hy Hpx Hpy Heq.
  assert (Hslash : forall l, forallb plainSegment l = true ->
                             forallb (fun seg => negb (containsUnit "/" seg)) l
                             = true).
  { intros l Hl. apply forallb_forall. intros seg Hin.
    rewrite forallb_forall in Hl.
    destruct (plainSegment_spec _ (Hl seg Hin)) as (_ & _ & _ & ->).
    reflexivity. }
  rewrite <- (split_join x Hx (Hslash x Hpx)),
          <- (split_join y Hy (Hslash y Hpy)).
  now rewrite Heq.
Qed.

(** X10: for a clean base path without backslash and a tree with plain,
    distinct names, no path is walked twice and no relative name is
    returned twice. *)
Theorem X10_simple_tree_gives_no_duplicates
  (root : Node) (basePath : string) (reg : Map) (files : list string) :
  cleanPath basePath = true ->
  containsUnit "\" basePath = false ->
  simpleTree root = true ->
  getAllFiles basePath root = Some files ->
  NoDup files
  /\ (forall out,
        promise (ParseFiles root basePath reg) = Fulfilled out ->
        NoDup (filenames out)).
Proof.
  intros Hclean Hback Hsimple Hwalk.
  pose proof (getAllFiles_clean _ _ _ Hclean Hback Hsimple Hwalk) as Hfiles.
  pose proof (relativePaths_NoDup _ Hsimple) as Hnd.
  assert (Hinj : forall (pre : string) x y,
             In x (relativePaths root) -> In y (relativePaths root) ->
             (pre ++ Js.join "/" x = pre ++ Js.join "/" y)%string -> x = y).
  { intros pre x y Hx Hy Heq. apply string_app_inv_head in Heq.
    apply join_injective; try assumption;
      try (eapply relativePaths_nonempty; eassumption);
      now apply (relativePaths_plain _ Hsimple). }
  split.
  - rewrite Hfiles. apply NoDup_map_on; [|exact Hnd].
    intros x y Hx Hy Heq. apply (Hinj (basePath ++ "/")%string x y Hx Hy).
    now rewrite !string_app_assoc.
  - intros out Hout.
    rewrite (filenames_walked _ _ _ _ _ Hwalk Hout), Hfiles, walkedNames_below.
    apply NoDup_filter, NoDup_map_on; [|exact Hnd].
    intros x y Hx Hy. unfold dotSlash. apply Hinj; assumption.
Qed.

Lemma X10_simple_tree_gives_no_duplicates_witness :
  NoDup ["/home/me/proj/README.md"; "/home/me/proj/src/main.js";
         "/home/me/proj/src/notes.txt"].
Proof.
  exact (proj1
    (X10_simple_tree_gives_no_duplicates docsAndSources "/home/me/proj" []
       _ eq_refl eq_refl eq_refl eq_refl)).
Defined.

(** ** Base paths that [path.join] normalizes *)

Lemma normalizeSegments_skip (allow : bool) (skipped : string)
  (l r : list string) :
  (skipped =? "")%string || (skipped =? ".")%string = true ->
  forall res,
    Path.normalizeSegments allow (l ++ skipped :: r) res
    = Path.normalizeSegments allow (l ++ r) res.
Proof.
  intros Hskip. induction l as [|seg l IH]; intros res.
  - cbn [app Path.normalizeSegments]. now rewrite Hskip.
  - cbn [app Path.normalizeSegments].
    destruct ((seg =? "")%string || (seg =? ".")%string); [apply IH|].
    destruct (seg =? "..")%string; [|apply IH].
    destruct res as [|top res']; [apply IH|].
    destruct (top =? "..")%string; apply IH.
Qed.

Lemma cleanPath_nonempty (p : string) :
  cleanPath p = true -> p <> EmptyString.
Proof. intros H ->. discriminate H. Qed.

Lemma normalize_same (s1 s2 : string) :
  (s1 =? "")%string = false -> (s2 =? "")%string = false ->
  String.prefix "/" s1 = String.prefix "/" s2 ->
  Path.endsWithSlash s1 = Path.endsWithSlash s2 ->
  (forall allow,
      Path.normalizeSegments allow (Js.split "/" s1) []
      = Path.normalizeSegments allow (Js.split "/" s2) []) ->
  Path.normalize s1 = Path.normalize s2.
Proof.
  intros H1 H2 Hpre Hend Hsegs. unfold Path.normalize.
  now rewrite H1, H2, Hpre, Hend, Hsegs.
Qed.

Lemma endsWithSlash_last (s f : string) (l : list string) :
  (f =? "")%string = false ->
  Js.split "/" s = l ++ [f] -> Path.endsWithSlash s = false.
Proof.
  intros Hf0 Hs. unfold Path.endsWithSlash. rewrite Hs, pop_app_last.
  destruct f; [discriminate Hf0 | reflexivity].
Qed.

(** With a slash appended to a clean directory path, [path.join] gives
    what it gives for the clean path. *)
Lemma join_trailing_slash (p f : string) :
  cleanPath p = true -> plainSegment f = true ->
  Path.join (p ++ "/") f = Path.join p f.
Proof.
  intros Hp Hf.
  destruct (plainSegment_spec _ Hf) as (Hf0 & _ & _ & Hfs).
  pose proof (cleanPath_nonempty _ Hp) as Hpne.
  assert (Hne : forall rest, ((p ++ rest) =? "")%string = false)
    by (intros rest; destruct p; [now elim Hpne | reflexivity]).
  assert (Hp0 : (p =? "")%string = false)
    by (destruct p; [now elim Hpne | reflexivity]).
  assert (Hs1 : Js.split "/" ((p ++ "/") ++ "/" ++ f)
                = (Js.split "/" p ++ [EmptyString]) ++ [f]).
  { rewrite string_app_assoc.
    change ("/" ++ "/" ++ f)%string with (String "/" (String "/" f)).
    rewrite split_app_sep, <- app_assoc. f_equal. cbn [Js.split app].
    rewrite Ascii.eqb_refl. now rewrite (split_no_sep _ _ Hfs). }
  assert (Hs2 : Js.split "/" (p ++ "/" ++ f) = Js.split "/" p ++ [f]).
  { change ("/" ++ f)%string with (String "/" f).
    now rewrite split_app_sep, (split_no_sep _ _ Hfs). }
  unfold Path.join. rewrite Hf0, Hp0, (Hne "/"%string).
  apply normalize_same.
  - rewrite string_app_assoc. apply Hne.
  - apply Hne.
  - rewrite string_app_assoc, !prefix_slash_app by exact Hpne. reflexivity.
  - rewrite (endsWithSlash_last _ _ _ Hf0 Hs1).
    now rewrite (endsWithSlash_last _ _ _ Hf0 Hs2).
  - intros allow. rewrite Hs1, Hs2, <- app_assoc. cbn [app].
    now apply normalizeSegments_skip.
Qed.

(** With [./] before a clean relative directory path, likewise. *)
Lemma join_leading_dot (p f : string) :
  cleanPath p = true -> String.prefix "/" p = false ->
  plainSegment f = true ->
  Path.join ("./" ++ p) f = Path.join p f.
Proof.
  intros Hp Hrel Hf.
  destruct (plainSegment_spec _ Hf) as (Hf0 & _ & _ & Hfs).
  pose proof (cleanPath_nonempty _ Hp) as Hpne.
  assert (Hp0 : (p =? "")%string = false)
    by (destruct p; [now elim Hpne | reflexivity]).
  assert (Hs2 : Js.split "/" (p ++ "/" ++ f) = Js.split "/" p ++ [f]).
  { change ("/" ++ f)%string with (String "/" f).
    now rewrite split_app_sep, (split_no_sep _ _ Hfs). }
  assert (Hs1 : Js.split "/" (("./" ++ p) ++ "/" ++ f)
                = ("."%string :: Js.split "/" p) ++ [f]).
  { change (("./" ++ p) ++ "/" ++ f)%string
      with ("." ++ String "/" (p ++ "/" ++ f))%string.
    rewrite split_app_sep, Hs2. reflexivity. }
  unfold Path.join. rewrite Hf0, Hp0.
  change (("./" ++ p) =? "")%string with false. cbv iota.
  apply normalize_same.
  - reflexivity.
  - destruct p; [now elim Hpne | reflexivity].
  - rewrite (prefix_slash_app p _ Hpne), Hrel. reflexivity.
  - rewrite (endsWithSlash_last _ _ _ Hf0 Hs1).
    now rewrite (endsWithSlash_last _ _ _ Hf0 Hs2).
  - intros allow. rewrite Hs1, Hs2.
    now apply (normalizeSegments_skip allow "." []).
Qed.

Lemma flat_map_ext_on {A B : Type} (f g : A -> list B) (l : list A) :
  (forall a, In a l -> f a = g a) -> flat_map f l = flat_map g l.
Proof.
  induction l as [|a l IH]; intros H; [reflexivity|].
  cbn [flat_map]. rewrite (H a (or_introl eq_refl)), IH; [reflexivity|].
  intros b Hb. apply H. now right.
Qed.

Lemma listing_same_joins (dir dir' : string) entries :
  (forall e, In e entries ->
             Path.join dir (fst e) = Path.join dir' (fst e)) ->
  listing dir (Dir entries) = listing dir' (Dir entries).
Proof.
  intros H. cbn [listing]. apply flat_map_ext_on.
  intros e Hin. now rewrite (H e Hin).
Qed.

Lemma simpleTree_entries entries :
  simpleTree (Dir entries) = true ->
  forall e, In e entries -> plainSegment (fst e) = true.
Proof.
  cbn [simpleTree]. intros H e Hin.
  apply andb_true_iff in H as [_ Hall]. rewrite forallb_forall in Hall.
  specialize (Hall e Hin). now apply andb_true_iff in Hall as [Hplain _].
Qed.

Lemma getAllFiles_same_joins (dir dir' : string) (root : Node) :
  containsUnit "\" dir = false -> containsUnit "\" dir' = false ->
  (forall entries e, root = Dir entries -> In e entries ->
                     Path.join dir (fst e) = Path.join dir' (fst e)) ->
  getAllFiles dir root = getAllFiles dir' root.
Proof.
  intros Hd Hd' Hjoin. unfold getAllFiles.
  rewrite !replace_absent by now rewrite occurs_unit.
  destruct root as [|entries| |]; try reflexivity.
  destruct (recursivelyGetFiles dir (Dir entries) []) as [acc|] eqn:E;
    [|discriminate E].
  destruct (recursivelyGetFiles dir' (Dir entries) []) as [acc'|] eqn:E';
    [|discriminate E'].
  rewrite (walk_listing _ _ _ _ E), (walk_listing _ _ _ _ E'). f_equal. f_equal.
  apply listing_same_joins. intros e Hin. now apply (Hjoin entries).
Qed.

(** X11: [path.join] normalizes the base path away at the first level of
    the walk: with a slash appended to a clean base path, or with [./]
    before a clean relative one, the walked paths are those of the clean
    base path.  With the trailing slash the classifier then cuts the slash
    off as well: the relative names are [.] followed directly by the joined
    names. *)
Theorem X11_base_path_is_normalized_by_the_walk
  (root : Node) (p : string) (reg : Map) :
  cleanPath p = true ->
  containsUnit "\" p = false ->
  simpleTree root = true ->
  getAllFiles (p ++ "/") root = getAllFiles p root
  /\ (String.prefix "/" p = false ->
      getAllFiles ("./" ++ p) root = getAllFiles p root)
  /\ (forall out,
        promise (ParseFiles root (p ++ "/") reg) = Fulfilled out ->
        filenames out
        = filter recognizedName
            (map (fun segs => ("." ++ Js.join "/" segs)%string)
                 (relativePaths root))).
Proof.
  intros Hclean Hback Hsimple.
  assert (Hslash : getAllFiles (p ++ "/") root = getAllFiles p root).
  { apply getAllFiles_same_joins; [|exact Hback|].
    - rewrite containsUnit_app, Hback. reflexivity.
    - intros entries e -> Hin. apply join_trailing_slash; [exact Hclean|].
      now apply (simpleTree_entries entries). }
  split; [exact Hslash|]. split.
  - intros Hrel. apply getAllFiles_same_joins; [|exact Hback|].
    + change ("./" ++ p)%string with (("./" ++ "") ++ p)%string.
      rewrite containsUnit_app, Hback. reflexivity.
    + intros entries e -> Hin. apply join_leading_dot; try assumption.
      now apply (simpleTree_entries entries).
  - intros out Hout.
    destruct (getAllFiles (p ++ "/") root) as [files|] eqn:Hwalk.
    + rewrite (filenames_walked _ _ _ _ _ Hwalk Hout).
      rewrite (getAllFiles_clean _ _ _ Hclean Hback Hsimple (eq_sym Hslash)).
      rewrite <- (walkedNames_under (p ++ "/") (Js.join "/")).
      f_equal. apply map_ext. intros segs. now rewrite string_app_assoc.
    + unfold ParseFiles in Hout. rewrite Hwalk in Hout. discriminate Hout.
Qed.

Lemma X11_base_path_is_normalized_by_the_walk_witness :
  fulfilledNames (ParseFiles scenarioA "proj/" (parsers oneFunctionPerFile keepsQueue))
  = Some [".a.js"; ".b.py"].
Proof.
  unfold fulfilledNames.
  destruct (promise (ParseFiles scenarioA "proj/"
                       (parsers oneFunctionPerFile keepsQueue)))
    as [out|] eqn:E; [|discriminate E].
  now rewrite (proj2 (proj2
    (X11_base_path_is_normalized_by_the_walk scenarioA "proj"
       (parsers oneFunctionPerFile keepsQueue) eq_refl eq_refl eq_refl))
    out E).
Defined.

(** ** The semantic predicates and actions of the lexer *)

Section SempredProperties.

Variable Lexer : Type.
Variables IsStartOfFile IsRegexPossible IsInTemplateString IsStrictMode :
  Lexer -> bool.

Local Notation sempred :=
  (JavaScriptLexer.sempred Lexer IsStartOfFile IsRegexPossible
     IsInTemplateString IsStrictMode).

(** X12: a semantic predicate fails only for the thirteen pairs of rule and
    predicate index that the lexer gates, and then only when the gate
    fails; the predicates of the reserved words of strict mode and of the
    strict [let] answer the strict-mode flag, those of the octal literal
    and of the other [let] answer its negation, so in no state do a
    strict-only and a sloppy-only token both pass. *)
Theorem X12_sempred_fails_only_on_a_failed_gate
  (this : Lexer) (r p : Z) :
  (In (r, p) JavaScriptLexer.strictOnly ->
   sempred this r p = IsStrictMode this)
  /\ (In (r, p) JavaScriptLexer.sloppyOnly ->
      sempred this r p = negb (IsStrictMode this))
  /\ (sempred this r p = false ->
      ((r, p) = (0, 0)%Z /\ IsStartOfFile this = false)
      \/ ((r, p) = (3, 1)%Z /\ IsRegexPossible this = false)
      \/ ((r, p) = (9, 2)%Z /\ IsInTemplateString this = false)
      \/ (In (r, p) JavaScriptLexer.strictOnly /\ IsStrictMode this = false)
      \/ (In (r, p) JavaScriptLexer.sloppyOnly /\ IsStrictMode this = true)).
Proof.
  split; [|split].
  - intros H. cbn [In JavaScriptLexer.strictOnly] in H.
    repeat (destruct H as [[= <- <-] | H]; [reflexivity|]). destruct H.
  - intros H. cbn [In JavaScriptLexer.sloppyOnly] in H.
    repeat (destruct H as [[= <- <-] | H]; [reflexivity|]). destruct H.
  - unfold JavaScriptLexer.sempred.
    repeat match goal with
           | |- context [(r =? ?k)%Z] =>
               destruct (Z.eqb_spec r k) as [->|_]
           end;
      try discriminate;
      unfold JavaScriptLexer.HashBangLine_sempred,
        JavaScriptLexer.RegularExpressionLiteral_sempred,
        JavaScriptLexer.TemplateCloseBrace_sempred,
        JavaScriptLexer.OctalIntegerLiteral_sempred,
        JavaScriptLexer.Implements_sempred, JavaScriptLexer.StrictLet_sempred,
        JavaScriptLexer.NonStrictLet_sempred, JavaScriptLexer.Private_sempred,
        JavaScriptLexer.Public_sempred, JavaScriptLexer.Interface_sempred,
        JavaScriptLexer.Package_sempred, JavaScriptLexer.Protected_sempred,
        JavaScriptLexer.Static_sempred;
      match goal with
      | |- context [(p =? ?k)%Z] => destruct (Z.eqb_spec p k) as [->|_]
      end;
      try discriminate;
      intros H; try apply negb_false_iff in H;
      cbn [In JavaScriptLexer.strictOnly JavaScriptLexer.sloppyOnly];
      intuition (try reflexivity; try assumption).
Qed.

End SempredProperties.

Section ActionProperties.

Variable Lexer : Type.
Variables ProcessOpenBrace ProcessCloseBrace ProcessStringLiteral
  IncreaseTemplateDepth DecreaseTemplateDepth : Lexer -> Lexer.

Local Notation action :=
  (JavaScriptLexer.action Lexer ProcessOpenBrace ProcessCloseBrace
     ProcessStringLiteral IncreaseTemplateDepth DecreaseTemplateDepth).

(** X13: an action changes the state of the lexer only for the five pairs
    of rule and action index that carry one (open brace, close brace,
    string literal, back tick, back tick inside a template); for any other
    pair, also an action index that belongs to another rule, the state is
    left as it was. *)
Theorem X13_action_only_on_its_own_pair (this : Lexer) (r a : Z) :
  (~ In (r, a) JavaScriptLexer.withAction -> action this r a = this)
  /\ action this 8 0 = ProcessOpenBrace this
  /\ action this 10 1 = ProcessCloseBrace this
  /\ action this 119 2 = ProcessStringLiteral this
  /\ action this 120 3 = IncreaseTemplateDepth this
  /\ action this 126 4 = DecreaseTemplateDepth this.
Proof.
  split; [|repeat split].
  intros Hout. unfold JavaScriptLexer.action.
  repeat match goal with
         | |- context [(r =? ?k)%Z] =>
             destruct (Z.eqb_spec r k) as [->|_]
         end;
    try reflexivity;
    unfold JavaScriptLexer.OpenBrace_action, JavaScriptLexer.CloseBrace_action,
      JavaScriptLexer.StringLiteral_action, JavaScriptLexer.BackTick_action,
      JavaScriptLexer.BackTickInside_action;
    match goal with
    | |- context [(a =? ?k)%Z] => destruct (Z.eqb_spec a k) as [->|_]
    end;
    try reflexivity;
    exfalso; apply Hout; cbn [In JavaScriptLexer.withAction]; tauto.
Qed.

End ActionProperties.

(** ** Languages, extensions and backends *)

(** X14: the five languages are told apart by their string values, which
    are the keys of the registry, and each language is the tag of exactly
    one lowered extension: no second extension (such as [cc], [h] or
    [mjs]) reaches a backend. *)
Theorem X14_one_extension_and_one_key_per_language (l : Language) :
  (forall l', languageValue l = languageValue l' -> l = l')
  /\ (exists ext,
        languageOfExtension ext = Some l
        /\ forall ext', languageOfExtension ext' = Some l -> ext' = ext).
Proof.
  split.
  - intros l'. destruct l as [[| |]|[|]], l' as [[| |]|[|]];
      intros H; try reflexivity; discriminate H.
  - assert (Hinv : forall ext' k,
               languageOfExtension ext' = Some k ->
               In (ext', k) extensionTable).
    { intros ext' k. unfold languageOfExtension.
      repeat match goal with
             | |- context [(ext' =? ?s)%string] =>
                 destruct (String.eqb_spec ext' s) as [->|_]
             end; intros [= <-]; simpl; tauto. }
    destruct l as [[| |]|[|]];
      [exists "cpp"%string | exists "cs"%string | exists "java"%string
      | exists "py"%string | exists "js"%string];
      (split; [reflexivity|]);
      intros ext' H; apply Hinv in H; simpl in H;
      repeat (destruct H as [[= <-] | H]; try reflexivity; try discriminate);
      destruct H.
Qed.

(** ** Instances of the properties without a precondition *)

Lemma X1_walk_appends_depth_first_listing_witness :
  getAllFiles "proj" docsAndSources
  = Some ["proj/README.md"; "proj/src/main.js"; "proj/src/notes.txt"].
Proof.
  unfold docsAndSources.
  now rewrite (proj1 (proj2
    (X1_walk_appends_depth_first_listing "proj"
       [ ("README.md", File); ("agit.js", File);
         ("src", Dir [("main.js", File); ("notes.txt", File)]) ] []))
    "proj").
Defined.

Lemma X8_run_returns_iff_walk_and_backends_succeed_witness :
  ParseFiles File "proj/a.js" javascriptOnly
  = {| promise := Rejected WalkFailed;
       parsersAfter := javascriptOnly;
       events := [] |}.
Proof.
  apply (proj2 (X8_run_returns_iff_walk_and_backends_succeed
                  File "proj/a.js" javascriptOnly)).
  intros entries H. discriminate H.
Defined.

Lemma X12_sempred_fails_only_on_a_failed_gate_witness :
  JavaScriptLexer.sempred bool (fun _ => true) (fun _ => true)
    (fun _ => true) (fun strict => strict) true 110 5
  = true
  /\ JavaScriptLexer.sempred bool (fun _ => true) (fun _ => true)
       (fun _ => true) (fun strict => strict) true 111 6
     = false.
Proof.
  pose proof (X12_sempred_fails_only_on_a_failed_gate bool (fun _ => true)
                (fun _ => true) (fun _ => true) (fun strict => strict)
                true 110 5) as (Hstrict & _ & _).
  pose proof (X12_sempred_fails_only_on_a_failed_gate bool (fun _ => true)
                (fun _ => true) (fun _ => true) (fun strict => strict)
                true 111 6) as (_ & Hsloppy & _).
  split.
  - apply Hstrict. simpl. tauto.
  - apply Hsloppy. simpl. tauto.
Defined.

Lemma X13_action_only_on_its_own_pair_witness :
  JavaScriptLexer.action nat S Nat.pred (fun depth => depth) S Nat.pred
    3 120 4
  = 3.
Proof.
  apply (proj1 (X13_action_only_on_its_own_pair nat S Nat.pred
                  (fun depth => depth) S Nat.pred 3 120 4)).
  simpl. intros H.
  repeat (destruct H as [H | H]; [discriminate H|]). exact H.
Defined.

Lemma X14_one_extension_and_one_key_per_language_witness :
  languageValue (XML CPP) = "C++" /\ XML CPP = XML CPP.
Proof.
  split; [reflexivity|].
  exact (proj1 (X14_one_extension_and_one_key_per_language (XML CPP))
           (XML CPP) eq_refl).
Defined.
